(** * Hikari: presences, the fabric, snowflakes and the model copy contract

    A shallow embedding of [hikari/core/models/presences.py] and
    [hikari/orm/fabric.py], together with the parts of
    [hikari.orm.models.interfaces] that the test-suite
    [tests/hikari/orm/models/test_interfaces.py] exercises. *)

From Stdlib Require Import ZArith Lia Ascii String.
From stdpp Require Import gmap strings list fin_maps.

Set Warnings "-register-all".

Local Open Scope Z_scope.

(** ** Payloads

    A payload is what [json.loads] hands to a model: [None], booleans,
    integers, strings, lists and string-keyed dictionaries.  Numbers with a
    fractional part are outside this model. *)

Inductive json : Type :=
  | JNull
  | JBool (b : bool)
  | JNum (z : Z)
  | JStr (s : string)
  | JList (l : list json)
  | JObj (m : gmap string json).

(** [data_structures.DiscordObjectT]: a dictionary with string keys. *)
Abbreviation DiscordObjectT := (gmap string json).

(** ** Exceptions and fallible computations *)

Inductive exn : Type :=
  | TypeError
  | AttributeError
  | KeyError
  | ValueError
  | NotImplementedError
  | RecursionError
  | ReferenceError
  | InvalidIdentity.

(** The specification speaks of [UnsupportedOperation]; in the sources that
    failure is Python's [NotImplementedError]. *)
Definition UnsupportedOperation : exn := NotImplementedError.

Inductive result (A : Type) : Type :=
  | Ok (a : A)
  | Raise (e : exn).

Arguments Ok {A} a.
Arguments Raise {A} e.

#[global] Instance result_ret : MRet result := λ A a, Ok a.

#[global] Instance result_bind : MBind result := λ A B f r,
  match r with
  | Ok a => f a
  | Raise e => Raise e
  end.

#[global] Instance result_fmap : FMap result := λ A B f r,
  match r with
  | Ok a => Ok (f a)
  | Raise e => Raise e
  end.

Definition returns {A} (r : result A) : Prop := ∃ a, r = Ok a.

(** A method that mutates [self]: it is handed the object, and yields the
    object as it is when the call ends together with the outcome of the call.
    When the call raises, the assignments made before the [raise] stay. *)

Definition mut (S A : Type) : Type := S → S * result A.

#[global] Instance mut_ret {S} : MRet (mut S) := λ A a s, (s, Ok a).

#[global] Instance mut_bind {S} : MBind (mut S) := λ A B f c s,
  match c s with
  | (s', Ok a) => f a s'
  | (s', Raise e) => (s', Raise e)
  end.

(** Evaluating an expression that does not assign to [self]. *)
Definition lift {S A} (r : result A) : mut S A := λ s, (s, r).

(** [self.x = v] *)
Definition assign {S} (set : S → S) : mut S unit := λ s, (set s, Ok tt).

(** [if b: body] *)
Definition when {S} (b : bool) (body : mut S unit) : mut S unit :=
  if b then body else mret tt.

(** An assertion on the object that a call keeps, however the call ends. *)
Definition preserves {S A} (I : S → Prop) (c : mut S A) : Prop :=
  ∀ s, I s → I (c s).1.

(** ** Python operations on payload values *)

(** [key in d] for a dictionary [d]. *)
Definition contains_key (d : DiscordObjectT) (key : string) : bool :=
  bool_decide (is_Some (d !! key)).

(** [d[key]] for a dictionary [d]. *)
Definition getitem (d : DiscordObjectT) (key : string) : result json :=
  match d !! key with
  | Some v => Ok v
  | None => Raise KeyError
  end.

(** [d.get(key, dflt)] for a dictionary [d]. *)
Definition dict_get (d : DiscordObjectT) (key : string) (dflt : json) : json :=
  default dflt (d !! key).

(** [needle in hay] for two strings: the substring test. *)
Fixpoint str_contains (needle hay : string) : bool :=
  String.prefix needle hay
  || match hay with
     | EmptyString => false
     | String _ rest => str_contains needle rest
     end.

(** [x == key] where [key] is a string. *)
Definition eq_str (key : string) (x : json) : bool :=
  match x with
  | JStr s => String.eqb s key
  | _ => false
  end.

(** [key in v] for an arbitrary value [v]: key membership for a dictionary,
    element membership for a list, the substring test for a string; [None],
    booleans and integers are not containers. *)
Definition py_in (key : string) (v : json) : result bool :=
  match v with
  | JObj m => Ok (contains_key m key)
  | JList l => Ok (existsb (eq_str key) l)
  | JStr s => Ok (str_contains key s)
  | JNull | JBool _ | JNum _ => Raise TypeError
  end.

(** [v.get(key)] for an arbitrary value [v]: only dictionaries have [get]. *)
Definition py_get (v : json) (key : string) : result json :=
  match v with
  | JObj m => Ok (dict_get m key JNull)
  | _ => Raise AttributeError
  end.

(** The characters of a string, each as a one-character string. *)
Fixpoint chars (s : string) : list json :=
  match s with
  | EmptyString => []
  | String c rest => JStr (String c EmptyString) :: chars rest
  end.

(** [for a in v]: the items a comprehension visits.  A dictionary yields its
    keys and a string its characters. *)
Definition py_iter (v : json) : result (list json) :=
  match v with
  | JList l => Ok l
  | JObj m => Ok (JStr <$> (map_to_list m).*1)
  | JStr s => Ok (chars s)
  | JNull | JBool _ | JNum _ => Raise TypeError
  end.

(** [[f(a) for a in items]] *)
Fixpoint comprehension {A} (f : json → result A) (items : list json)
  : result (list A) :=
  match items with
  | [] => Ok []
  | a :: rest => x ← f a; xs ← comprehension f rest; Ok (x :: xs)
  end.

(** ** Helpers imported by the module

    [transformations], [data_structures], [date_helpers] and [base] are
    imported by [presences.py]; their sources are not part of the files at
    hand. *)

(** Modelled from the spec: [transformations.try_cast(value, cast, default)]
    is missing from the sources; it is the cast of the value when the cast
    succeeds and the default when the cast raises, which is what makes an
    unrecognized status fall back to [Status.OFFLINE]. *)
Definition try_cast {A} (value : json) (cast : json → result A) (dflt : A) : A :=
  match cast value with
  | Ok a => a
  | Raise _ => dflt
  end.

(** Modelled from the spec: [transformations.nullable_cast(value, cast)] is
    missing from the sources; [None] stays [None] (an absent field stays
    absent), anything else is cast, and a failing cast raises. *)
Definition nullable_cast {A} (value : json) (cast : json → result A)
  : result (option A) :=
  match value with
  | JNull => Ok None
  | v => Some <$> cast v
  end.

(** Modelled from the spec: [data_structures.EMPTY_SEQUENCE] and
    [data_structures.EMPTY_DICT] are missing from the sources; they are the
    empty sequence and the empty dictionary. *)
Definition EMPTY_SEQUENCE {A} : list A := [].
Definition EMPTY_DICT : json := JObj ∅.

(** An aware UTC instant and a [timedelta], both counted in microseconds. *)
Definition datetime : Type := Z.
Definition timedelta : Type := Z.

(** The builtin [int] and [date_helpers.unix_epoch_to_ts] are taken as given:
    nothing below depends on what they return. *)
Class Casts : Type := {
  py_int : json → result Z;
  unix_epoch_to_ts : json → result datetime
}.

(** ** [Status] *)

Inductive Status : Type := ONLINE | IDLE | DND | OFFLINE.

#[global] Instance Status_eq_dec : EqDecision Status.
Proof. solve_decision. Defined.

Definition upper_ascii (c : ascii) : ascii :=
  let n := nat_of_ascii c in
  if (97 <=? n)%nat && (n <=? 122)%nat then ascii_of_nat (n - 32) else c.

(** [s.upper()]; a string is a sequence of bytes here, and only the ASCII
    letters have an upper case. *)
Fixpoint upper (s : string) : string :=
  match s with
  | EmptyString => EmptyString
  | String c rest => String (upper_ascii c) (upper rest)
  end.

(** [Status[name]]: the member of that name. *)
Definition Status_member (name : string) : result Status :=
  if String.eqb name "ONLINE" then Ok ONLINE
  else if String.eqb name "IDLE" then Ok IDLE
  else if String.eqb name "DND" then Ok DND
  else if String.eqb name "OFFLINE" then Ok OFFLINE
  else Raise KeyError.

(** Modelled from the spec: [base.NamedEnum.from_discord_name] is missing
    from the sources; it maps the lower-case wire name to the member of the
    upper-cased name (["online"] to [ONLINE], ["dnd"] to [DND]; the test-suite
    maps ["bar"] to [BAR]).  A value that is not a string has no [upper]. *)
Definition from_discord_name (v : json) : result Status :=
  match v with
  | JStr name => Status_member (upper name)
  | _ => Raise AttributeError
  end.

(** ** The activity kinds *)

Module ActivityTimestamps.
Section with_casts.
Context `{Casts}.

(** [__slots__ = ("start", "end")]; both are a [datetime] or [None]. *)
Record t : Type := mk { start : option datetime; end_ : option datetime }.

(** [ActivityTimestamps(payload)] *)
Definition init (payload : json) : result t :=
  v ← py_get payload "start";
  start ← nullable_cast v unix_epoch_to_ts;
  v ← py_get payload "end";
  end_ ← nullable_cast v unix_epoch_to_ts;
  Ok (mk start end_).

(** The [duration] property:
    [self.end - self.start if self.start is not None and self.end is not None else None] *)
Definition duration (self : t) : option timedelta :=
  match start self, end_ self with
  | Some s, Some e => Some (e - s)
  | _, _ => None
  end.

Definition update_state (payload : DiscordObjectT) : mut t unit :=
  lift (Raise NotImplementedError).
End with_casts.
End ActivityTimestamps.

Module ActivityParty.
Section with_casts.
Context `{Casts}.

(** [__slots__ = ("id", "current_size", "max_size")] *)
Record t : Type := mk {
  id : json;
  current_size : option Z;
  max_size : option Z
}.

(** [ActivityParty(payload)] *)
Definition init (payload : json) : result t :=
  id ← py_get payload "id";
  v ← py_get payload "current_size";
  current_size ← nullable_cast v py_int;
  v ← py_get payload "max_size";
  max_size ← nullable_cast v py_int;
  Ok (mk id current_size max_size).

Definition update_state (payload : DiscordObjectT) : mut t unit :=
  lift (Raise NotImplementedError).
End with_casts.
End ActivityParty.

Module ActivityAssets.

(** [__slots__ = ("large_image", "large_text", "small_image", "small_text")] *)
Record t : Type := mk {
  large_image : json;
  large_text : json;
  small_image : json;
  small_text : json
}.

(** [ActivityAssets(payload)] *)
Definition init (payload : json) : result t :=
  large_image ← py_get payload "large_image";
  large_text ← py_get payload "large_text";
  small_image ← py_get payload "small_image";
  small_text ← py_get payload "small_text";
  Ok (mk large_image large_text small_image small_text).

Definition update_state (payload : DiscordObjectT) : mut t unit :=
  lift (Raise NotImplementedError).
End ActivityAssets.

(** [class ActivityType(enum.IntEnum)] *)
Inductive ActivityType : Type := UNKNOWN | PLAYING | STREAMING | LISTENING | WATCHING.

Definition ActivityType_value (a : ActivityType) : Z :=
  match a with
  | UNKNOWN => -1
  | PLAYING => 0
  | STREAMING => 1
  | LISTENING => 2
  | WATCHING => 3
  end.

(** The integer a payload value stands for: [bool] is a subclass of [int]. *)
Definition as_int (v : json) : option Z :=
  match v with
  | JNum z => Some z
  | JBool b => Some (Z.b2z b)
  | _ => None
  end.

(** [ActivityType(value)]: the member with that value. *)
Definition ActivityType_call (v : json) : result ActivityType :=
  match as_int v with
  | Some (-1) => Ok UNKNOWN
  | Some 0 => Ok PLAYING
  | Some 1 => Ok STREAMING
  | Some 2 => Ok LISTENING
  | Some 3 => Ok WATCHING
  | _ => Raise ValueError
  end.

(** [class ActivityFlag(enum.IntFlag)]: a set of bits; every integer is
    accepted, with [INSTANCE = 0x1] up to [PLAY = 0x20] the named bits. *)
Definition ActivityFlag : Type := Z.

Definition INSTANCE : ActivityFlag := 0x1.
Definition JOIN : ActivityFlag := 0x2.
Definition SPECTATE : ActivityFlag := 0x4.
Definition JOIN_REQUEST : ActivityFlag := 0x8.
Definition SYNC : ActivityFlag := 0x10.
Definition PLAY : ActivityFlag := 0x20.

(** [ActivityFlag(value)] *)
Definition ActivityFlag_call (v : json) : result ActivityFlag :=
  match as_int v with
  | Some z => Ok z
  | None => Raise ValueError
  end.

Module PresenceActivity.
Section with_casts.
Context `{Casts}.

(** The slots that [__init__] fills; [secrets] is declared and never set. *)
Record t : Type := mk {
  id : json;
  name : json;
  type : option ActivityType;
  url : json;
  timestamps : option ActivityTimestamps.t;
  application_id : option Z;
  details : json;
  state : json;
  party : option ActivityParty.t;
  assets : option ActivityAssets.t;
  flags : ActivityFlag
}.

(** [PresenceActivity(payload)] *)
Definition init (payload : json) : result t :=
  id ← py_get payload "id";
  name ← py_get payload "name";
  v ← py_get payload "type";
  let type := try_cast v (λ v, Some <$> ActivityType_call v) None in
  url ← py_get payload "url";
  v ← py_get payload "timestamps";
  timestamps ← nullable_cast v ActivityTimestamps.init;
  v ← py_get payload "application_id";
  application_id ← nullable_cast v py_int;
  details ← py_get payload "details";
  state ← py_get payload "state";
  v ← py_get payload "party";
  party ← nullable_cast v ActivityParty.init;
  v ← py_get payload "assets";
  assets ← nullable_cast v ActivityAssets.init;
  v ← py_get payload "flags";
  flags ← nullable_cast v ActivityFlag_call;
  Ok (mk id name type url timestamps application_id details state party
         assets (default 0 flags)).

Definition update_state (payload : DiscordObjectT) : mut t unit :=
  lift (Raise NotImplementedError).
End with_casts.
End PresenceActivity.

(** ** [Presence] *)

Module Presence.
Section with_casts.
Context `{Casts}.

(** [__slots__ = ("activities", "status", "web_status", "desktop_status", "mobile_status")] *)
Record t : Type := mk {
  activities : list PresenceActivity.t;
  status : Status;
  web_status : Status;
  desktop_status : Status;
  mobile_status : Status
}.

Definition set_activities (v : list PresenceActivity.t) (self : t) : t :=
  mk v (status self) (web_status self) (desktop_status self) (mobile_status self).
Definition set_status (v : Status) (self : t) : t :=
  mk (activities self) v (web_status self) (desktop_status self) (mobile_status self).
Definition set_web_status (v : Status) (self : t) : t :=
  mk (activities self) (status self) v (desktop_status self) (mobile_status self).
Definition set_desktop_status (v : Status) (self : t) : t :=
  mk (activities self) (status self) (web_status self) v (mobile_status self).
Definition set_mobile_status (v : Status) (self : t) : t :=
  mk (activities self) (status self) (web_status self) (desktop_status self) v.

(** [Presence.update_state(self, payload)] *)
Definition update_state (payload : DiscordObjectT) : mut t unit :=
  let client_status := dict_get payload "client_status" EMPTY_DICT in
  when (contains_key payload "activities") (
    acts ← lift (v ← getitem payload "activities";
                 items ← py_iter v;
                 comprehension PresenceActivity.init items);
    assign (set_activities acts)) ;;
  when (contains_key payload "status") (
    v ← lift (getitem payload "status");
    assign (set_status (try_cast v from_discord_name OFFLINE))) ;;
  b ← lift (py_in "web" client_status);
  when b (
    v ← lift (py_get client_status "web");
    assign (set_web_status (try_cast v from_discord_name OFFLINE))) ;;
  b ← lift (py_in "desktop" client_status);
  when b (
    v ← lift (py_get client_status "desktop");
    assign (set_desktop_status (try_cast v from_discord_name OFFLINE))) ;;
  b ← lift (py_in "mobile" client_status);
  when b (
    v ← lift (py_get client_status "mobile");
    assign (set_mobile_status (try_cast v from_discord_name OFFLINE))).

(** What the comprehension over [payload["activities"]] comes to; [None]
    when the payload has no such key. *)
Definition new_activities (payload : DiscordObjectT)
  : result (option (list PresenceActivity.t)) :=
  match payload !! "activities" with
  | Some v =>
      items ← py_iter v;
      acts ← comprehension PresenceActivity.init items;
      Ok (Some acts)
  | None => Ok None
  end.

(** The payload has a ["client_status"] dictionary with that key. *)
Definition client_key (payload : DiscordObjectT) (key : string) : Prop :=
  ∃ m, payload !! "client_status" = Some (JObj m) ∧ is_Some (m !! key).

(** A payload of the documented shape: its activities, if any, can be
    built, and its ["client_status"], if any, is a dictionary.  Nothing is
    asked of the status values. *)
Definition well_formed (payload : DiscordObjectT) : Prop :=
  returns (new_activities payload)
  ∧ ∀ v, payload !! "client_status" = Some v → ∃ m, v = JObj m.

(** The ["client_status"] dictionary of a payload, empty when the payload
    has none. *)
Definition client_dict (payload : DiscordObjectT) : gmap string json :=
  match payload !! "client_status" with
  | Some (JObj m) => m
  | _ => ∅
  end.

(** A status field after a merge: the cast of the value under its key, or
    what it was when the key is missing. *)
Definition merge_status (old : Status) (v : option json) : Status :=
  match v with
  | Some v => try_cast v from_discord_name OFFLINE
  | None => old
  end.

(** The object after a merge that went through all of its assignments,
    [oacts] being the activities built from the payload. *)
Definition merged (payload : DiscordObjectT)
    (oacts : option (list PresenceActivity.t)) (self : t) : t :=
  mk (default (activities self) oacts)
     (merge_status (status self) (payload !! "status"))
     (merge_status (web_status self) (client_dict payload !! "web"))
     (merge_status (desktop_status self) (client_dict payload !! "desktop"))
     (merge_status (mobile_status self) (client_dict payload !! "mobile")).

(** A value that is not the name of a status. *)
Definition unrecognized (v : json) : Prop := ¬ returns (from_discord_name v).

(** Every status field whose key holds an unrecognized value is
    [OFFLINE]. *)
Definition offline_where_unrecognized (payload : DiscordObjectT) (p : t)
  : Prop :=
  (∀ v, payload !! "status" = Some v → unrecognized v → status p = OFFLINE)
  ∧ (∀ v, client_dict payload !! "web" = Some v → unrecognized v →
          web_status p = OFFLINE)
  ∧ (∀ v, client_dict payload !! "desktop" = Some v → unrecognized v →
          desktop_status p = OFFLINE)
  ∧ (∀ v, client_dict payload !! "mobile" = Some v → unrecognized v →
          mobile_status p = OFFLINE).

(** Payloads and a presence to run the model on. *)
Definition online_payload : DiscordObjectT :=
  {[ "status" := JStr "online";
     "client_status" := JObj {[ "desktop" := JStr "dnd" ]} ]}.
Definition idle_payload : DiscordObjectT := {[ "status" := JStr "idle" ]}.
Definition web_payload : DiscordObjectT :=
  {[ "client_status" := JObj {[ "web" := JNum 5 ]} ]}.
Definition null_payload : DiscordObjectT :=
  {[ "status" := JNull;
     "client_status" := JObj {[ "web" := JNum 5 ]} ]}.
Definition listening_payload : DiscordObjectT :=
  {[ "activities" :=
       JList [JObj {[ "name" := JStr "x"; "type" := JNum 2 ]}] ]}.
Definition dnd_presence : t := mk [] ONLINE OFFLINE DND OFFLINE.

(** The object as [__init__] has it before it calls [update_state]. *)
Definition blank : t := mk EMPTY_SEQUENCE OFFLINE OFFLINE OFFLINE OFFLINE.

(** [Presence(payload)]: no object comes out of a constructor that raises. *)
Definition init (payload : DiscordObjectT) : result t :=
  match update_state payload blank with
  | (self, Ok _) => Ok self
  | (_, Raise e) => Raise e
  end.
End with_casts.
End Presence.

(** A reading of the two external casts on integers, to run the models on
    concrete payloads: [unix_epoch_to_ts] takes milliseconds.  Arguments that
    are not integers are not covered, and raise here. *)
Definition integer_casts : Casts := {|
  py_int v :=
    match as_int v with
    | Some z => Ok z
    | None => Raise TypeError
    end;
  unix_epoch_to_ts v :=
    match as_int v with
    | Some ms => Ok (ms * 1000)
    | None => Raise TypeError
    end
|}.

(** ** The fabric *)

Module Fabric.
Section with_components.
(** [IEventHandler], [IStateRegistry] and [GatewayClientV7] are declared in
    modules that are not part of the sources at hand. *)
Context {IEventHandler IStateRegistry GatewayClientV7 : Type}.

(** What a field annotated with a component holds: the component, or the
    [NotImplemented] singleton the dataclass defaults it to. *)
Inductive component (A : Type) : Type :=
  | NotImplemented
  | Component (a : A).

(** [@dataclasses.dataclass() class Fabric]; the keys of [gateways] are
    [typing.Optional[int]]. *)
Record t : Type := mk {
  event_handler : component IEventHandler;
  state_registry : component IStateRegistry;
  gateways : gmap (option Z) GatewayClientV7
}.

(** The generated [__init__]: an argument left out takes the field's
    default, [NotImplemented] for the two components and
    [default_factory=dict], a new empty dictionary, for [gateways]. *)
Definition init (event_handler : option (component IEventHandler))
    (state_registry : option (component IStateRegistry))
    (gateways : option (gmap (option Z) GatewayClientV7)) : t :=
  mk (default (NotImplemented _) event_handler)
     (default (NotImplemented _) state_registry)
     (default ∅ gateways).
End with_components.

Arguments t : clear implicits.
Arguments NotImplemented {A}.
Arguments Component {A} a.
End Fabric.

(** ** Snowflakes *)

Module Snowflake.

(** Modelled from the spec: [interfaces.ISnowflake] is missing from the
    sources (its tests are at hand); an Identity is a single unsigned 64-bit
    integer, held in the [id] slot. *)
Record t : Type := mk { id : Z }.

(** Modelled from the spec: construction from a raw value, which "fails with
    [InvalidIdentity] if negative or outside the valid bit width". *)
Definition init (raw : Z) : result t :=
  if bool_decide (0 ≤ raw < 2 ^ 64) then Ok (mk raw) else Raise InvalidIdentity.

(** Modelled from the spec: the ordering operators between two Identities
    compare the raw values. *)
Definition lt (a b : t) : bool := bool_decide (id a < id b).
Definition le (a b : t) : bool := bool_decide (id a ≤ id b).
Definition gt (a b : t) : bool := bool_decide (id a > id b)%Z.
Definition ge (a b : t) : bool := bool_decide (id a >= id b)%Z.

(** The service's epoch, 2015-01-01T00:00:00Z, in milliseconds since the
    Unix epoch. *)
Definition DISCORD_EPOCH : Z := 1420070400000.

(** Modelled from the spec: [created_at] is the "epoch offset plus
    (raw >> 22) milliseconds", as an aware instant. *)
Definition created_at (s : t) : datetime :=
  (DISCORD_EPOCH + id s ≫ 22) * 1000.

(** Modelled from the spec: [(raw >> 17) & 0x1F], [(raw >> 12) & 0x1F] and
    [raw & 0xFFF]. *)
Definition internal_worker_id (s : t) : Z := Z.land (id s ≫ 17) 0x1F.
Definition internal_process_id (s : t) : Z := Z.land (id s ≫ 12) 0x1F.
Definition increment (s : t) : Z := Z.land (id s) 0xFFF.

(** The [neko_snowflake] fixture of the test-suite. *)
Definition neko_snowflake : t := mk 537340989808050216.
End Snowflake.

(** ** The model contract: classes, objects and [copy] *)

Module Model.
Local Open Scope nat_scope.

(** Modelled from the spec: [interfaces.IModel] is missing from the sources
    (its tests are at hand).  An entity type declares a fixed set of field
    names and a list of the field names that are copied by reference; both
    are inherited and merged across the ancestry of the type.  [IModel] is
    the root of the entity types and [ISnowflake] the root of those that
    carry an Identity, in their [id] slot. *)
Inductive class : Type :=
  | IModel
  | ISnowflake
  | Sub (base : class) (name : string)
        (slots : list string) (copy_by_ref : list string).

#[global] Instance class_eq_dec : EqDecision class.
Proof. solve_decision. Defined.

(** [cls.__all_slots__] *)
Fixpoint all_slots (c : class) : list string :=
  match c with
  | IModel | ISnowflake => []
  | Sub base _ slots _ => all_slots base ++ slots
  end.

(** Modelled from the spec: the reference-copy list of a type, "inherited
    and merged across the type's ancestry".  The back-reference to the
    fabric is shared by every entity type, as
    [test_IModel_does_not_clone_state_by_default_fields] has it. *)
Fixpoint copy_by_ref (c : class) : list string :=
  match c with
  | IModel | ISnowflake => ["_fabric"]
  | Sub base _ _ refs => copy_by_ref base ++ refs
  end.

Fixpoint carries_identity (c : class) : bool :=
  match c with
  | IModel => false
  | ISnowflake => true
  | Sub base _ _ _ => carries_identity base
  end.

(** Objects live in a store and are known by their address: [a is b] is the
    equality of two addresses.  A value is [None], an integer, a string, or
    a reference to an object; an object is a list or an instance of an
    entity type with the values of its fields. *)
Abbreviation addr := nat.

Inductive val : Type :=
  | VNone
  | VInt (z : Z)
  | VStr (s : string)
  | VRef (a : addr).

Inductive obj : Type :=
  | OList (items : list val)
  | OInst (cls : class) (fields : list (string * val)).

Abbreviation heap := (list obj).

#[global] Instance val_eq_dec : EqDecision val.
Proof. solve_decision. Defined.

(** The values an object holds, and the same object holding other values. *)
Definition children (o : obj) : list val :=
  match o with
  | OList items => items
  | OInst _ fields => fields.*2
  end.

Definition with_children (o : obj) (kids : list val) : obj :=
  match o with
  | OList _ => OList kids
  | OInst cls fields => OInst cls (zip fields.*1 kids)
  end.

(** A new object is placed after all the objects there are. *)
Definition alloc (o : obj) : mut heap addr := λ h, (h ++ [o], Ok (length h)).

Definition load (a : addr) : mut heap obj := λ h,
  (h, match h !! a with
      | Some o => Ok o
      | None => Raise ReferenceError
      end).

(** A mutation of the object at an address. *)
Definition store (a : addr) (o : obj) : mut heap unit := λ h,
  (<[a:=o]> h, Ok tt).

(** [a is b] *)
Definition is_ (a b : addr) : bool := bool_decide (a = b).

Fixpoint traverse {S A B} (f : A → mut S B) (l : list A) : mut S (list B) :=
  match l with
  | [] => mret []
  | x :: rest => y ← f x; ys ← traverse f rest; mret (y :: ys)
  end.

(** Modelled from the spec: "the field is deep-duplicated".  The duplicate
    of a reference is a new object holding the duplicates of what the object
    holds; [fuel] is the depth of recursion the interpreter allows.  An
    object that a value reaches twice is duplicated twice, and a value that
    reaches itself exhausts the fuel. *)
Fixpoint deepcopy (fuel : nat) (v : val) : mut heap val :=
  match v, fuel with
  | VRef a, S fuel' =>
      o ← load a;
      kids ← traverse (deepcopy fuel') (children o);
      a' ← alloc (with_children o kids);
      mret (VRef a')
  | VRef _, 0 => lift (Raise RecursionError)
  | _, _ => mret v
  end.

(** Modelled from the spec: "for each declared field: if the field name is
    in the type's (inherited) reference-copy list, the new instance shares
    the same underlying value; otherwise the field is deep-duplicated". *)
Definition copy_field (fuel : nat) (refs : list string) (f : string * val)
  : mut heap (string * val) :=
  if bool_decide (f.1 ∈ refs) then mret f
  else v ← deepcopy fuel f.2; mret (f.1, v).

(** Modelled from the spec: [copy()] "produces a new instance of the same
    concrete type".  It is a method of the entity types: an address that
    holds no instance is no receiver for it. *)
Definition copy (fuel : nat) (self : addr) : mut heap addr :=
  o ← load self;
  match o with
  | OInst cls fields =>
      fields' ← traverse (copy_field fuel (copy_by_ref cls)) fields;
      alloc (OInst cls fields')
  | OList _ => lift (Raise TypeError)
  end.

(** The value of the first field of that name. *)
Definition field (name : string) (fields : list (string * val)) : option val :=
  (λ p, p.2.2) <$> list_find (λ f, f.1 = name) fields.

(** [getattr(self, name)] *)
Definition getattr (h : heap) (self : addr) (name : string) : option val :=
  match h !! self with
  | Some (OInst _ fields) => field name fields
  | _ => None
  end.

(** The Identity an instance carries. *)
Definition identity (fields : list (string * val)) : option Z :=
  match field "id" fields with
  | Some (VInt z) => Some z
  | _ => None
  end.

(** Modelled from the spec: "two entities are equal iff they are the same
    concrete type and (for identity-bearing entities) carry the same
    Identity value; for non-identity-bearing entities equality falls back to
    default per-instance identity".  Types that override equality are not
    covered. *)
Definition equals (h : heap) (a b : addr) : bool :=
  match h !! a, h !! b with
  | Some (OInst ca fa), Some (OInst cb fb) =>
      if carries_identity ca then
        match identity fa, identity fb with
        | Some x, Some y => bool_decide (ca = cb) && bool_decide (x = y)
        | _, _ => false
        end
      else is_ a b
  | _, _ => false
  end.

(** What can be seen of a value by following its references, [depth] levels
    down: the values and the kinds of the objects, without their
    addresses. *)
Inductive label : Type :=
  | LList
  | LInst (cls : class) (names : list string).

Inductive tree : Type :=
  | Leaf (v : val)
  | Node (l : label) (kids : list tree).

Definition label_of (o : obj) : label :=
  match o with
  | OList _ => LList
  | OInst cls fields => LInst cls fields.*1
  end.

Fixpoint snapshot (depth : nat) (h : heap) (v : val) : option tree :=
  match v, depth with
  | VRef a, S depth' =>
      o ← h !! a;
      kids ← mapM (snapshot depth' h) (children o);
      Some (Node (label_of o) kids)
  | VRef _, 0 => None
  | _, _ => Some (Leaf v)
  end.

(** The addresses a value refers to are among those of [P]. *)
Definition points_in (P : addr → Prop) (v : val) : Prop :=
  match v with
  | VRef a => P a
  | _ => True
  end.

(** No object of the store holds a reference to an address where there is
    no object. *)
Definition wf (h : heap) : Prop :=
  Forall (λ o, Forall (points_in (λ a, a < length h)) (children o)) h.

(** The objects of a piece of store hold no reference below [k]. *)
Definition above (k : nat) (ext : heap) : Prop :=
  Forall (λ o, Forall (points_in (λ a, k ≤ a)) (children o)) ext.

(** [v'] is [v], or a reference to an object placed between [lo] and [hi]
    when [v] is a reference. *)
Definition fresh_copy (lo hi : nat) (v v' : val) : Prop :=
  match v with
  | VRef _ => ∃ a', v' = VRef a' ∧ lo ≤ a' < hi
  | _ => v' = v
  end.

(** What [deepcopy] asks of a value of the store [h], and what it gives
    for it in the store [h']. *)
Definition readable (depth : nat) (h : heap) (v : val) : Prop :=
  points_in (λ a, a < length h) v ∧ is_Some (snapshot depth h v).

Definition deep_copied (depth : nat) (h h' : heap) (v v' : val) : Prop :=
  fresh_copy (length h) (length h') v v'
  ∧ snapshot depth h' v' = snapshot depth h v.

(** The same for a field that [copy] goes through. *)
Definition field_readable (depth : nat) (refs : list string) (h : heap)
    (f : string * val) : Prop :=
  points_in (λ a, a < length h) f.2
  ∧ (f.1 ∈ refs ∨ is_Some (snapshot depth h f.2)).

Definition field_copied (depth : nat) (refs : list string) (h h' : heap)
    (f f' : string * val) : Prop :=
  f'.1 = f.1
  ∧ if bool_decide (f.1 ∈ refs) then f'.2 = f.2
    else deep_copied depth h h' f.2 f'.2.

(** The objects that can be mutated through a value: the one it refers to,
    and those that can be mutated through what that one holds. *)
Inductive reaches (h : heap) : val → addr → Prop :=
  | reaches_here a : reaches h (VRef a) a
  | reaches_step a o v b :
      h !! a = Some o → v ∈ children o → reaches h v b →
      reaches h (VRef a) b.

(** [v'] is a duplicate of [v]: both show the same, and no mutation through
    the one changes what the other shows. *)
Definition duplicate (depth : nat) (h : heap) (v v' : val) : Prop :=
  is_Some (snapshot depth h v')
  ∧ snapshot depth h v' = snapshot depth h v
  ∧ (∀ a o d, reaches h v a →
       snapshot d (<[a:=o]> h) v' = snapshot d h v')
  ∧ (∀ a o d, reaches h v' a →
       snapshot d (<[a:=o]> h) v = snapshot d h v).

(** [v'] is the very value [v]: whatever the store becomes, both show the
    same. *)
Definition shared (v v' : val) : Prop :=
  v' = v ∧ ∀ (h : heap) d, snapshot d h v' = snapshot d h v.

(** What [copy] owes for a field [f] of an instance of [cls], [f'] being
    the field of the new instance: the same name; the very same value when
    the name is in the reference-copy list of the type, a duplicate when it
    is not. *)
Definition copied_field (depth : nat) (h : heap) (cls : class)
    (f f' : string * val) : Prop :=
  f'.1 = f.1
  ∧ if bool_decide (f.1 ∈ copy_by_ref cls) then shared f.2 f'.2
    else duplicate depth h f.2 f'.2.

(** The fields that [copy] duplicates can be read in full within the depth
    of recursion allowed. *)
Definition copyable (fuel : nat) (h : heap) (cls : class)
    (fields : list (string * val)) : Prop :=
  Forall (λ f, f.1 ∈ copy_by_ref cls ∨ is_Some (snapshot fuel h f.2)) fields.

(** The concrete class [Test] of
    [test_IModel_does_not_inject_dummy_init_if_not_interface], without
    fields and without Identity, and a store with one instance of it. *)
Definition Plain : class := Sub IModel "Test" [] [].
Definition plain_heap : heap := [OInst Plain []].

(** The class [DummySnowflake] of the test-suite, and a store with the
    instance [DummySnowflake(12345)]. *)
Definition DummySnowflake : class := Sub ISnowflake "DummySnowflake" ["id"] [].
Definition snowflake_heap : heap := [OInst DummySnowflake [("id", VInt 12345)]].

(** A class whose [data] is copied by reference and whose [other] is not,
    and a store with an instance of it: [data] is the list [[1, 2, 3]] and
    [other] a list that holds that list. *)
Definition Sharing : class := Sub IModel "Test" ["data"; "other"] ["data"].
Definition sharing_heap : heap :=
  [ OList [VInt 1; VInt 2; VInt 3];
    OList [VRef 0];
    OInst Sharing [("data", VRef 0); ("other", VRef 1)] ].

(** The classes of [test_IModel___copy_by_ref___is_inherited]. *)
Definition Base1 : class := Sub IModel "Base1" ["a"; "b"; "c"] ["a"; "b"; "c"].
Definition Base2 : class := Sub Base1 "Base2" ["d"; "e"; "f"] ["d"; "e"; "f"].
Definition Base3 : class := Sub Base2 "Base3" ["g"; "h"; "i"] ["g"; "h"; "i"].
End Model.

(** ** More on payloads and the activity kinds *)

(** The payload has a value other than [None] under the key. *)
Definition present (m : DiscordObjectT) (key : string) : Prop :=
  ∃ v, m !! key = Some v ∧ v ≠ JNull.

(** The keys of ["client_status"] that [Presence.update_state] looks for. *)
Definition client_names : list string := ["web"; "desktop"; "mobile"].

(** How the three tests on ["client_status"] end: each is
    [if key in client_status: ... client_status.get(key) ...]. *)
Definition client_check (cs : json) (key : string) : result unit :=
  b ← py_in key cs;
  if b : bool then _ ← py_get cs key; Ok tt else Ok tt.

Definition client_outcome (cs : json) : result unit :=
  _ ← client_check cs "web";
  _ ← client_check cs "desktop";
  client_check cs "mobile".

(** Two payloads that do not assign to the same field of a presence. *)
Definition disjoint_updates (p1 p2 : DiscordObjectT) : Prop :=
  (p1 !! "activities" = None ∨ p2 !! "activities" = None)
  ∧ (p1 !! "status" = None ∨ p2 !! "status" = None)
  ∧ ∀ key, Presence.client_dict p1 !! key = None
           ∨ Presence.client_dict p2 !! key = None.

(** The members of [ActivityFlag], [a | b] and [flag in value] on flags. *)
Definition ActivityFlag_members : list ActivityFlag :=
  [INSTANCE; JOIN; SPECTATE; JOIN_REQUEST; SYNC; PLAY].

Definition flag_union (flags : list ActivityFlag) : ActivityFlag :=
  foldr Z.lor 0 flags.

Definition has_flag (value flag : ActivityFlag) : bool :=
  Z.land value flag =? flag.

(** The keys of an activity payload whose values [PresenceActivity.__init__]
    stores as they are or casts with a fallback. *)
Definition plain_keys : list string :=
  ["id"; "name"; "type"; "url"; "details"; "state"].

(** The keys whose values it constructs an object from. *)
Definition nested_keys : list string := ["timestamps"; "party"; "assets"].

(** One of the three keys is found in a ["client_status"] that is a list or
    a string: as an element of the list, as a part of the string. *)
Definition mentions_client (cs : json) : bool :=
  existsb (λ key, match py_in key cs with
                  | Ok b => b
                  | Raise _ => false
                  end) client_names.

(** The object after the assignments of the payload that come before the
    tests on ["client_status"]. *)
Definition merged_head (payload : DiscordObjectT)
    (oacts : option (list PresenceActivity.t)) (self : Presence.t)
  : Presence.t :=
  Presence.mk (default (Presence.activities self) oacts)
    (Presence.merge_status (Presence.status self) (payload !! "status"))
    (Presence.web_status self) (Presence.desktop_status self)
    (Presence.mobile_status self).

(** Payloads to run the model on. *)
Definition other_keys_payload : DiscordObjectT :=
  {[ "user" := JObj {[ "id" := JStr "1" ]}; "game" := JNull ]}.
Definition null_client_payload : DiscordObjectT :=
  {[ "status" := JStr "idle"; "client_status" := JNull ]}.
Definition text_client_payload : DiscordObjectT :=
  {[ "status" := JStr "idle"; "client_status" := JStr "webhook" ]}.
Definition bad_entry_payload : DiscordObjectT :=
  {[ "status" := JStr "idle";
     "activities" := JList [JObj {[ "name" := JStr "x" ]}; JStr "y"] ]}.
Definition named_activity : DiscordObjectT := {[ "name" := JStr "x" ]}.
Definition streaming_activity : DiscordObjectT := {[ "type" := JBool true ]}.
Definition party_activity : DiscordObjectT :=
  {[ "party" := JObj {[ "id" := JStr "p" ]} ]}.
Definition text_party_activity : DiscordObjectT := {[ "party" := JStr "p" ]}.
Definition started : DiscordObjectT := {[ "start" := JNum 1000 ]}.
Definition listed_size : DiscordObjectT := {[ "current_size" := JList [] ]}.

(** * Facts *)

(** ** Calls that keep an assertion *)

Section preserves.
Context {S : Type} (I : S → Prop).

Lemma preserves_lift {A} (r : result A) : preserves I (lift r).
Proof. by intros s Hs. Qed.

Lemma preserves_ret {A} (a : A) : preserves I (mret a).
Proof. by intros s Hs. Qed.

Lemma preserves_assign (set : S → S) :
  (∀ s, I s → I (set s)) → preserves I (assign set).
Proof. intros Hset s Hs. by apply Hset. Qed.

Lemma preserves_bind {A B} (c : mut S A) (f : A → mut S B) :
  preserves I c → (∀ a, preserves I (f a)) → preserves I (c ≫= f).
Proof.
  intros Hc Hf s Hs. specialize (Hc s Hs).
  unfold mbind, mut_bind. destruct (c s) as [s' [a|e]]; simpl in *; [|done].
  by apply Hf.
Qed.

Lemma preserves_bind_lift {A B} (r : result A) (f : A → mut S B) :
  (∀ a, r = Ok a → preserves I (f a)) → preserves I (lift r ≫= f).
Proof.
  intros Hf s Hs. unfold mbind, mut_bind, lift.
  destruct r as [a|e]; simpl; [|done]. by apply Hf.
Qed.

Lemma preserves_when (b : bool) (c : mut S unit) :
  (b = true → preserves I c) → preserves I (when b c).
Proof. intros Hc. destruct b; simpl; [by apply Hc|apply preserves_ret]. Qed.
End preserves.

Ltac frame_step :=
  first
  [ apply preserves_lift
  | apply preserves_ret
  | apply preserves_assign; by intros [] ?
  | apply preserves_bind_lift; intros ? ?
  | apply preserves_when; intros ?
  | apply preserves_bind; [|intros ?] ].

(** ** Presences *)

Lemma contains_key_false (d : DiscordObjectT) k :
  d !! k = None → contains_key d k = false.
Proof.
  intros Hk. unfold contains_key. rewrite Hk.
  apply bool_decide_eq_false. by intros [? ?].
Qed.

Lemma client_status_guard payload key v :
  ¬ Presence.client_key payload key →
  py_in key (dict_get payload "client_status" EMPTY_DICT) = Ok true →
  py_get (dict_get payload "client_status" EMPTY_DICT) key = Ok v → False.
Proof.
  unfold Presence.client_key, dict_get, EMPTY_DICT. intros Hno Hin Hget.
  destruct (payload !! "client_status") as [cs|] eqn:Hcs; simpl in *.
  - destruct cs; try discriminate. injection Hin as Hin.
    apply Hno. eexists; split; [done|]. by apply bool_decide_eq_true in Hin.
  - injection Hin as Hin. apply bool_decide_eq_true in Hin.
    destruct Hin as [? Hin]. by rewrite lookup_empty in Hin.
Qed.

Lemma from_discord_name_not_str v :
  (∀ s, v ≠ JStr s) → from_discord_name v = Raise AttributeError.
Proof. intros Hv. destruct v; try done. by destruct (Hv s). Qed.

Lemma try_cast_unrecognized v :
  ¬ returns (from_discord_name v) → try_cast v from_discord_name OFFLINE = OFFLINE.
Proof.
  intros Hv. unfold try_cast. destruct (from_discord_name v) as [st|e]; [|done].
  destruct Hv. by exists st.
Qed.

Section presence.
Context `{Casts}.
Implicit Types (payload : DiscordObjectT) (self : Presence.t).

Ltac frame_with I payload :=
  cut (preserves I (Presence.update_state payload));
  [ let Hp := fresh in intros Hp; by apply Hp
  | unfold Presence.update_state ].

Lemma frame_activities payload self :
  payload !! "activities" = None →
  Presence.activities (Presence.update_state payload self).1
  = Presence.activities self.
Proof.
  intros Hk.
  frame_with (λ s, Presence.activities s = Presence.activities self) payload.
  rewrite (contains_key_false _ _ Hk). repeat frame_step.
Qed.

Lemma frame_status payload self :
  payload !! "status" = None →
  Presence.status (Presence.update_state payload self).1 = Presence.status self.
Proof.
  intros Hk.
  frame_with (λ s, Presence.status s = Presence.status self) payload.
  rewrite (contains_key_false _ _ Hk). repeat frame_step.
Qed.

Lemma frame_web payload self :
  ¬ Presence.client_key payload "web" →
  Presence.web_status (Presence.update_state payload self).1
  = Presence.web_status self.
Proof.
  intros Hk.
  frame_with (λ s, Presence.web_status s = Presence.web_status self) payload.
  repeat frame_step. subst. exfalso. eauto using client_status_guard.
Qed.

Lemma frame_desktop payload self :
  ¬ Presence.client_key payload "desktop" →
  Presence.desktop_status (Presence.update_state payload self).1
  = Presence.desktop_status self.
Proof.
  intros Hk.
  frame_with (λ s, Presence.desktop_status s = Presence.desktop_status self) payload.
  repeat frame_step. subst. exfalso. eauto using client_status_guard.
Qed.

Lemma frame_mobile payload self :
  ¬ Presence.client_key payload "mobile" →
  Presence.mobile_status (Presence.update_state payload self).1
  = Presence.mobile_status self.
Proof.
  intros Hk.
  frame_with (λ s, Presence.mobile_status s = Presence.mobile_status self) payload.
  repeat frame_step. subst. exfalso. eauto using client_status_guard.
Qed.

(** What a call comes to: nothing is assigned when the activities cannot be
    built; otherwise every assignment the payload asks for is made, up to a
    ["client_status"] that is not a dictionary, which assigns nothing of its
    own and may raise. *)
Lemma update_state_spec payload self :
  match Presence.new_activities payload with
  | Ok oacts =>
      ∃ out, Presence.update_state payload self
             = (Presence.merged payload oacts self, out)
           ∧ (Presence.well_formed payload → out = Ok tt)
  | Raise e => Presence.update_state payload self = (self, Raise e)
  end.
Proof.
  unfold Presence.update_state, Presence.new_activities, Presence.merged,
    Presence.client_dict, Presence.merge_status, Presence.well_formed.
  unfold py_in, py_get, getitem, contains_key, dict_get, when, lift, assign,
    EMPTY_DICT.
  unfold mbind, mut_bind, result_bind, mret, mut_ret.
  destruct self as [a st w d mo]; simpl.
  destruct (payload !! "client_status") as [cs|] eqn:Hcs; simpl;
    [|rewrite !lookup_empty; simpl];
    (destruct (payload !! "activities") as [va|]; simpl;
     [destruct (py_iter va) as [items|]; simpl;
      [destruct (comprehension PresenceActivity.init items); simpl|]|]);
    try reflexivity;
    destruct (payload !! "status"); simpl;
    try (eexists; split; [reflexivity|done]).
  all: destruct cs as [| b | z | s | l | m]; simpl.
  all: try (destruct (m !! "web"); simpl; destruct (m !! "desktop"); simpl;
            destruct (m !! "mobile"); simpl).
  all: repeat match goal with
       | |- context [if ?b then _ else _] => destruct b; simpl
       end.
  all: eexists; (split; [reflexivity|]).
  all: try done.
  all: intros [_ Hwf]; by destruct (Hwf _ eq_refl).
Qed.

Lemma update_state_well_formed payload self :
  Presence.well_formed payload →
  ∃ oacts, Presence.new_activities payload = Ok oacts
         ∧ Presence.update_state payload self
           = (Presence.merged payload oacts self, Ok tt).
Proof.
  intros Hwf. pose proof (update_state_spec payload self) as Hs.
  destruct Hwf as [[oacts Hacts] Hcs]. rewrite Hacts in Hs.
  destruct Hs as (out & Hs & Hout). exists oacts. split; [done|].
  rewrite Hs. f_equal. apply Hout. split; [by exists oacts|done].
Qed.

Lemma update_state_returns payload self :
  (Presence.update_state payload self).2 = Ok tt →
  ∃ oacts, Presence.new_activities payload = Ok oacts
         ∧ (Presence.update_state payload self).1
           = Presence.merged payload oacts self.
Proof.
  intros Hout. pose proof (update_state_spec payload self) as Hs.
  destruct (Presence.new_activities payload) as [oacts|e].
  - destruct Hs as (out & Hs & _). exists oacts. by rewrite Hs.
  - by rewrite Hs in Hout.
Qed.
End presence.

(** ** Properties of presences *)

Section presence_properties.
Context `{Casts}.
Implicit Types (payload : DiscordObjectT) (self : Presence.t).

Lemma comprehension_Forall2 {A} (f : json → result A) l xs :
  comprehension f l = Ok xs ↔ Forall2 (λ a x, f a = Ok x) l xs.
Proof.
  revert xs. induction l as [|a l IH]; intros xs; simpl.
  - split; [intros [= <-]; constructor|by inversion 1].
  - unfold mbind, result_bind. split.
    + destruct (f a) as [x|] eqn:Hx; [|done].
      destruct (comprehension f l) as [xs'|] eqn:Hxs; [|done].
      intros [= <-]. constructor; [done|]. by apply IH.
    + inversion 1 as [|? x ? xs' Hx Hxs]; subst. rewrite Hx.
      apply IH in Hxs. by rewrite Hxs.
Qed.

Lemma merged_offline payload oacts self :
  Presence.offline_where_unrecognized payload
    (Presence.merged payload oacts self).
Proof.
  unfold Presence.offline_where_unrecognized, Presence.merged; simpl.
  repeat split; intros v -> Hv; simpl; by apply try_cast_unrecognized.
Qed.

(** C1: [Presence.update_state] merges a partial payload into the object in
    place and returns nothing.  Whatever the payload and however the call
    ends, a field whose key is missing from the payload keeps its value:
    the activities and the overall status under ["activities"] and
    ["status"], the web, desktop and mobile statuses under the keys of the
    ["client_status"] dictionary.  On a payload of the documented shape the
    call returns [None] and has made every assignment the payload asks for.
    In particular [update_state({"status": "idle"})] on a presence whose
    desktop status is [DND] sets the status to [IDLE] and leaves the desktop
    status [DND]. *)
Theorem update_state_sets_only_present_keys payload self :
  let self' := (Presence.update_state payload self).1 in
  (payload !! "activities" = None →
     Presence.activities self' = Presence.activities self)
  ∧ (payload !! "status" = None →
     Presence.status self' = Presence.status self)
  ∧ (¬ Presence.client_key payload "web" →
     Presence.web_status self' = Presence.web_status self)
  ∧ (¬ Presence.client_key payload "desktop" →
     Presence.desktop_status self' = Presence.desktop_status self)
  ∧ (¬ Presence.client_key payload "mobile" →
     Presence.mobile_status self' = Presence.mobile_status self)
  ∧ (Presence.well_formed payload →
     ∃ oacts, Presence.new_activities payload = Ok oacts
            ∧ Presence.update_state payload self
              = (Presence.merged payload oacts self, Ok tt))
  ∧ (Presence.desktop_status self = DND →
     Presence.update_state {[ "status" := JStr "idle" ]} self
     = (Presence.set_status IDLE self, Ok tt)
     ∧ Presence.status (Presence.set_status IDLE self) = IDLE
     ∧ Presence.desktop_status (Presence.set_status IDLE self) = DND).
Proof.
  repeat apply conj.
  - apply frame_activities.
  - apply frame_status.
  - apply frame_web.
  - apply frame_desktop.
  - apply frame_mobile.
  - apply update_state_well_formed.
  - by destruct self.
Qed.

(** C2: a presence constructed from
    [{"status": "online", "client_status": {"desktop": "dnd"}}] has status
    [ONLINE], desktop status [DND], and web and mobile statuses [OFFLINE].
    More generally construction succeeds on every payload of the documented
    shape, and every field that the payload does not specify has its
    default: [OFFLINE] for a status, the empty sequence for the
    activities. *)
Theorem init_defaults payload :
  Presence.init
    {[ "status" := JStr "online";
       "client_status" := JObj {[ "desktop" := JStr "dnd" ]} ]}
  = Ok (Presence.mk [] ONLINE OFFLINE DND OFFLINE)
  ∧ (Presence.well_formed payload → returns (Presence.init payload))
  ∧ ∀ p, Presence.init payload = Ok p →
      (payload !! "activities" = None → Presence.activities p = [])
      ∧ (payload !! "status" = None → Presence.status p = OFFLINE)
      ∧ (¬ Presence.client_key payload "web" →
         Presence.web_status p = OFFLINE)
      ∧ (¬ Presence.client_key payload "desktop" →
         Presence.desktop_status p = OFFLINE)
      ∧ (¬ Presence.client_key payload "mobile" →
         Presence.mobile_status p = OFFLINE).
Proof.
  split; [by vm_compute|]. split.
  - intros Hwf. unfold Presence.init.
    destruct (update_state_well_formed payload Presence.blank Hwf)
      as (oacts & _ & ->). by eexists.
  - intros p Hp. unfold Presence.init in Hp.
    assert (p = (Presence.update_state payload Presence.blank).1) as ->.
    { destruct (Presence.update_state payload Presence.blank) as [q [[]|e]];
        by simplify_eq. }
    repeat apply conj; intros Hk.
    + by rewrite frame_activities.
    + by rewrite frame_status.
    + by rewrite frame_web.
    + by rewrite frame_desktop.
    + by rewrite frame_mobile.
Qed.

(** C5: when the payload has the ["activities"] key, the activities of the
    presence are replaced by the sequence of the [PresenceActivity] objects
    constructed from the entries under that key, one for each entry and in
    their order, whatever activities the presence held; when one of them
    cannot be constructed the call raises and the presence is as it
    was. *)
Theorem update_state_replaces_activities payload self v :
  payload !! "activities" = Some v →
  match py_iter v ≫= comprehension PresenceActivity.init with
  | Ok acts =>
      Presence.activities (Presence.update_state payload self).1 = acts
      ∧ (∀ other,
           Presence.activities (Presence.update_state payload other).1 = acts)
      ∧ (∀ l, v = JList l →
           Forall2 (λ a x, PresenceActivity.init a = Ok x) l acts)
  | Raise e => Presence.update_state payload self = (self, Raise e)
  end.
Proof.
  intros Hv.
  assert (∀ s, match py_iter v ≫= comprehension PresenceActivity.init with
               | Ok acts =>
                   Presence.activities (Presence.update_state payload s).1
                   = acts
               | Raise e => Presence.update_state payload s = (s, Raise e)
               end) as Hany.
  { intros s. pose proof (update_state_spec payload s) as Hs.
    unfold Presence.new_activities in Hs. rewrite Hv in Hs.
    unfold mbind, result_bind in *.
    destruct (py_iter v) as [items|]; [|done].
    destruct (comprehension PresenceActivity.init items); [|done].
    destruct Hs as (out & -> & _). done. }
  pose proof (Hany self) as Hself.
  destruct (py_iter v ≫= comprehension PresenceActivity.init)
    as [acts|e] eqn:Hacts; [|done].
  split; [done|]. split; [done|].
  intros l ->. by apply comprehension_Forall2.
Qed.

(** C10: a status value that is not the name of a status, [None] and the
    values that are not strings among them, never makes the call raise, and
    the field it is meant for is [OFFLINE]: on every payload of the
    documented shape [update_state] returns and construction succeeds, and
    after every call that returns, as after every construction, each status
    field whose key holds such a value is [OFFLINE].  A status field is
    always one of [ONLINE], [IDLE], [DND] and [OFFLINE]. *)
Theorem unrecognized_status_is_offline payload self :
  let self' := (Presence.update_state payload self).1 in
  (∀ v, (∀ s, v ≠ JStr s) → Presence.unrecognized v)
  ∧ (∀ v, Presence.unrecognized v →
          try_cast v from_discord_name OFFLINE = OFFLINE)
  ∧ (Presence.well_formed payload →
     (Presence.update_state payload self).2 = Ok tt
     ∧ returns (Presence.init payload))
  ∧ ((Presence.update_state payload self).2 = Ok tt →
     Presence.offline_where_unrecognized payload self')
  ∧ (∀ p, Presence.init payload = Ok p →
          Presence.offline_where_unrecognized payload p)
  ∧ (∀ st : Status, st ∈ [ONLINE; IDLE; DND; OFFLINE]).
Proof.
  repeat apply conj.
  - intros v Hv [st Hst]. by rewrite from_discord_name_not_str in Hst.
  - apply try_cast_unrecognized.
  - intros Hwf. split.
    + by destruct (update_state_well_formed payload self Hwf)
        as (oacts & _ & ->).
    + unfold Presence.init.
      destruct (update_state_well_formed payload Presence.blank Hwf)
        as (oacts & _ & ->). by eexists.
  - intros Hout. destruct (update_state_returns payload self Hout)
      as (oacts & _ & ->). apply merged_offline.
  - intros p Hp. unfold Presence.init in Hp.
    destruct (Presence.update_state payload Presence.blank)
      as [q [[]|e]] eqn:Hq; simplify_eq.
    destruct (update_state_returns payload Presence.blank) as (oacts & _ & Hm).
    { by rewrite Hq. }
    rewrite Hq in Hm. simpl in Hm. subst. apply merged_offline.
  - intros []; set_solver.
Qed.
End presence_properties.

(** ** The activity kinds *)

(** C3: for each of [PresenceActivity], [ActivityParty], [ActivityAssets] and
    [ActivityTimestamps], [update_state] fails with [UnsupportedOperation] on
    every object and every payload, and leaves the object as it was. *)
Theorem activity_kinds_reject_update_state (payload : DiscordObjectT) :
  (∀ self, PresenceActivity.update_state payload self
           = (self, Raise UnsupportedOperation))
  ∧ (∀ self, ActivityParty.update_state payload self
             = (self, Raise UnsupportedOperation))
  ∧ (∀ self, ActivityAssets.update_state payload self
             = (self, Raise UnsupportedOperation))
  ∧ (∀ self, ActivityTimestamps.update_state payload self
             = (self, Raise UnsupportedOperation)).
Proof. done. Qed.

(** C4: the duration of an [ActivityTimestamps] is defined, and is the end
    minus the start, exactly when both the start and the end are present;
    when either is absent the duration is [None], which is neither zero nor
    an error.  In particular it is [None] when only the start is set. *)
Theorem duration_defined_iff_start_and_end (ts : ActivityTimestamps.t) :
  (∀ d, ActivityTimestamps.duration ts = Some d
        ↔ ∃ s e, ActivityTimestamps.start ts = Some s
               ∧ ActivityTimestamps.end_ ts = Some e ∧ d = e - s)
  ∧ (ActivityTimestamps.duration ts = None
     ↔ ActivityTimestamps.start ts = None ∨ ActivityTimestamps.end_ ts = None)
  ∧ (ActivityTimestamps.start ts = None ∨ ActivityTimestamps.end_ ts = None →
     ActivityTimestamps.duration ts ≠ Some 0)
  ∧ (∀ s, ActivityTimestamps.duration (ActivityTimestamps.mk (Some s) None)
          = None).
Proof.
  destruct ts as [[s|] [e|]]; unfold ActivityTimestamps.duration; simpl.
  all: repeat split; try done.
  all: try (intros [= <-]; by eexists _, _).
  all: try (by intros (? & ? & ? & ? & ?)).
  all: try (intros (? & ? & [= <-] & [= <-] & ->); done).
  all: try (by intros [|]).
  all: try (by left).
  all: try (by right).
Qed.

(** An [ActivityTimestamps] constructed from a payload with only a start, as
    the casts on integers have it. *)
Example duration_with_only_start :
  ActivityTimestamps.duration
  <$> ActivityTimestamps.init (H:=integer_casts) (JObj {[ "start" := JNum 1000 ]})
  = Ok None.
Proof. by vm_compute. Qed.

(** ** The store *)

Section store.
Import Model.
Local Open Scope nat_scope.
Implicit Types (h : heap) (v : val) (o : obj) (a : addr).

Lemma points_in_impl (P Q : addr → Prop) v :
  (∀ a, P a → Q a) → points_in P v → points_in Q v.
Proof. destruct v; simpl; auto. Qed.

Lemma wf_lookup h a o :
  wf h → h !! a = Some o →
  Forall (points_in (λ b, b < length h)) (children o).
Proof. intros Hwf Ho. exact (Forall_lookup_1 _ h a o Hwf Ho). Qed.

Lemma wf_app h ext :
  wf h →
  Forall (λ o, Forall (points_in (λ b, b < length (h ++ ext))) (children o)) ext →
  wf (h ++ ext).
Proof.
  intros Hwf Hext. apply Forall_app. split; [|done].
  eapply Forall_impl; [exact Hwf|]. intros o Ho.
  eapply Forall_impl; [exact Ho|]. intros v.
  apply points_in_impl. intros b. rewrite length_app. lia.
Qed.

Lemma above_le k k' ext : k' ≤ k → above k ext → above k' ext.
Proof.
  intros Hk Hab. eapply Forall_impl; [exact Hab|]. intros o Ho.
  eapply Forall_impl; [exact Ho|]. intros v.
  apply points_in_impl. intros b. lia.
Qed.

(** What a value shows depends only on a part of the store that is closed
    under the references its objects hold. *)
Lemma snapshot_agree (P : addr → Prop) h1 h2 :
  (∀ a o, P a → h1 !! a = Some o → Forall (points_in P) (children o)) →
  (∀ a, P a → h1 !! a = h2 !! a) →
  ∀ n v, points_in P v → snapshot n h1 v = snapshot n h2 v.
Proof.
  intros Hclosed Hagree n.
  induction n as [|n IH]; intros [| | |a] Hv; try done.
  simpl in *. rewrite <-(Hagree a Hv).
  destruct (h1 !! a) as [o|] eqn:Ho; [|done]. simpl.
  rewrite (Forall_mapM_ext (snapshot n h1) (snapshot n h2) (children o));
    [done|].
  eapply Forall_impl; [by eapply Hclosed|]. intros; by apply IH.
Qed.

Lemma reaches_closed (P : addr → Prop) h v b :
  (∀ a o, P a → h !! a = Some o → Forall (points_in P) (children o)) →
  points_in P v → reaches h v b → P b.
Proof.
  intros Hclosed Hv Hr. induction Hr as [a|a o v b Ho Hin _ IH]; [done|].
  apply IH. eapply (proj1 (Forall_forall _ _)); [by eapply Hclosed|done].
Qed.

(** The old part of a store stays closed when the store grows. *)
Lemma old_closed h ext :
  wf h →
  ∀ a o, a < length h → (h ++ ext) !! a = Some o →
         Forall (points_in (λ b, b < length h)) (children o).
Proof.
  intros Hwf a o Ha Ho. rewrite lookup_app_l in Ho by done.
  by eapply wf_lookup.
Qed.

Lemma snapshot_app h ext n v :
  wf h → points_in (λ b, b < length h) v →
  snapshot n (h ++ ext) v = snapshot n h v.
Proof.
  intros Hwf Hv. symmetry.
  apply (snapshot_agree (λ b, b < length h)); [|  |done].
  - intros a o Ha Ho. by eapply wf_lookup.
  - intros a Ha. by rewrite lookup_app_l.
Qed.

Lemma children_with_children o kids :
  length kids = length (children o) →
  children (with_children o kids) = kids.
Proof.
  destruct o as [items|cls fields]; simpl; [done|].
  rewrite !length_fmap. intros Hlen. apply snd_zip.
  rewrite length_fmap. lia.
Qed.

Lemma label_with_children o kids :
  length kids = length (children o) →
  label_of (with_children o kids) = label_of o.
Proof.
  destruct o as [items|cls fields]; simpl; [done|].
  rewrite !length_fmap. intros Hlen. f_equal. apply fst_zip.
  rewrite length_fmap. lia.
Qed.

(** ** Traversals that only add to the store *)

Section traverse.
Context {A B : Type} (step : A → mut heap B).
Context (pre : heap → A → Prop) (post : heap → heap → A → B → Prop).

Hypothesis step_spec : ∀ x h,
  wf h → pre h x →
  ∃ ext y, step x h = (h ++ ext, Ok y) ∧ wf (h ++ ext)
         ∧ above (length h) ext ∧ post h (h ++ ext) x y.
Hypothesis pre_mono : ∀ x h ext,
  wf h → wf (h ++ ext) → pre h x → pre (h ++ ext) x.
Hypothesis post_end : ∀ x y h h1 ext,
  wf h1 → wf (h1 ++ ext) → post h h1 x y → post h (h1 ++ ext) x y.
Hypothesis post_start : ∀ x y h ext h2,
  wf h → pre h x → post (h ++ ext) h2 x y → post h h2 x y.

Lemma traverse_spec l : ∀ h,
  wf h → Forall (pre h) l →
  ∃ ext ys, traverse step l h = (h ++ ext, Ok ys) ∧ wf (h ++ ext)
          ∧ above (length h) ext ∧ Forall2 (post h (h ++ ext)) l ys.
Proof.
  induction l as [|x l IH]; intros h Hwf Hpre.
  - exists [], []. rewrite app_nil_r. repeat split; try done; constructor.
  - apply Forall_cons in Hpre as [Hx Hl].
    destruct (step_spec x h Hwf Hx) as (e1 & y & Hstep & Hwf1 & Hab1 & Hpost).
    destruct (IH (h ++ e1) Hwf1) as (e2 & ys & Htr & Hwf2 & Hab2 & Hposts).
    { eapply Forall_impl; [exact Hl|]. intros; by apply pre_mono. }
    exists (e1 ++ e2), (y :: ys). rewrite app_assoc.
    split; [|split; [done|split]].
    + simpl. unfold mbind, mut_bind. rewrite Hstep, Htr. done.
    + apply Forall_app. split; [done|].
      eapply above_le; [|exact Hab2]. rewrite length_app. lia.
    + constructor; [by apply post_end|].
      clear -Hl Hposts Hwf post_start.
      induction Hposts as [|x' y' l' ys' Hxy _ IH']; [constructor|].
      apply Forall_cons in Hl as [Hx' Hl'].
      constructor; [by eapply post_start|by apply IH'].
Qed.
End traverse.
End store.

(** ** Deep copies *)

Section deepcopy.
Import Model.
Local Open Scope nat_scope.
Implicit Types (h : heap) (v : val) (o : obj) (a : addr).

Lemma fresh_copy_points lo hi v v' :
  fresh_copy lo hi v v' → points_in (λ b, b < hi) v'.
Proof.
  destruct v; simpl; try by intros ->.
  intros (a' & -> & Ha). simpl. lia.
Qed.

Lemma fresh_copy_above lo hi v v' :
  fresh_copy lo hi v v' → points_in (λ b, lo ≤ b) v' ∨ v' = v.
Proof.
  destruct v; simpl; auto.
  intros (a' & -> & Ha). left. simpl. lia.
Qed.

Lemma fresh_copy_weaken lo hi lo' hi' v v' :
  lo' ≤ lo → hi ≤ hi' → fresh_copy lo hi v v' → fresh_copy lo' hi' v v'.
Proof.
  intros Hlo Hhi. destruct v; simpl; auto.
  intros (a' & -> & Ha). exists a'. split; [done|lia].
Qed.

Lemma readable_app n h ext v :
  wf h → readable n h v → readable n (h ++ ext) v.
Proof.
  intros Hwf [Hv Hs]. split.
  - eapply points_in_impl; [|exact Hv]. intros b. rewrite length_app. lia.
  - by rewrite snapshot_app.
Qed.

Lemma deep_copied_end n h h1 ext v v' :
  wf h1 → deep_copied n h h1 v v' → deep_copied n h (h1 ++ ext) v v'.
Proof.
  intros Hwf [Hf Hs]. split.
  - eapply fresh_copy_weaken; [| |exact Hf]; [done|]. rewrite length_app. lia.
  - rewrite snapshot_app; [done|done|]. by eapply fresh_copy_points.
Qed.

Lemma deep_copied_start n h ext h2 v v' :
  wf h → readable n h v →
  deep_copied n (h ++ ext) h2 v v' → deep_copied n h h2 v v'.
Proof.
  intros Hwf [Hv _] [Hf Hs]. split.
  - eapply fresh_copy_weaken; [| |exact Hf]; [|done]. rewrite length_app. lia.
  - rewrite Hs. by apply snapshot_app.
Qed.

Lemma deepcopy_spec n : ∀ v h,
  wf h → readable n h v →
  ∃ ext v', deepcopy n v h = (h ++ ext, Ok v') ∧ wf (h ++ ext)
          ∧ above (length h) ext ∧ deep_copied n h (h ++ ext) v v'.
Proof.
  assert (∀ m v h, (∀ a, v ≠ VRef a) → wf h →
     ∃ ext v', deepcopy m v h = (h ++ ext, Ok v') ∧ wf (h ++ ext)
             ∧ above (length h) ext ∧ deep_copied m h (h ++ ext) v v')
    as Hleaf.
  { intros m v h Hv Hwf. exists [], v. rewrite app_nil_r.
    destruct v as [| | |a]; try (by destruct (Hv a));
      by destruct m; repeat split; try constructor. }
  induction n as [|n IH]; intros v h Hwf [Hv [t Ht]].
  { destruct v as [| | |a]; by apply Hleaf. }
  destruct v as [| | |a]; try (apply Hleaf; done).
  simpl in Hv, Ht.
  destruct (h !! a) as [o|] eqn:Ho; [|done]. simpl in Ht.
  destruct (mapM (snapshot n h) (children o)) as [ts|] eqn:Hts; [|done].
  destruct (traverse_spec (deepcopy n) (readable n) (deep_copied n))
    with (l := children o) (h := h)
    as (ext & kids & Htr & Hwf1 & Hab & Hkids); try done.
  { intros; by apply readable_app. }
  { intros; by apply deep_copied_end. }
  { intros; by eapply deep_copied_start. }
  { apply Forall_forall. intros k Hk. split.
    - eapply (proj1 (Forall_forall _ _)); [by eapply wf_lookup|done].
    - assert (is_Some (mapM (snapshot n h) (children o))) as Hsome by eauto.
      apply mapM_is_Some in Hsome.
      by eapply (proj1 (Forall_forall _ _)) in Hsome. }
  assert (length kids = length (children o)) as Hlen.
  { symmetry. by eapply Forall2_length. }
  assert (Forall (points_in (λ b, b < length (h ++ ext))) kids) as Hbound.
  { apply Forall_forall. intros k Hk.
    apply list_elem_of_lookup in Hk as [i Hi].
    destruct (Forall2_lookup_r _ _ _ _ _ Hkids Hi) as (x & _ & [Hf _]).
    by eapply fresh_copy_points. }
  exists (ext ++ [with_children o kids]), (VRef (length (h ++ ext))).
  rewrite app_assoc. repeat split.
  - simpl. unfold mbind, mut_bind, load, alloc, mret, mut_ret.
    by rewrite Ho, Htr.
  - apply wf_app; [done|]. constructor; [|constructor].
    rewrite children_with_children by done.
    eapply Forall_impl; [exact Hbound|]. intros k.
    apply points_in_impl. intros b. rewrite (length_app (h ++ ext)). simpl. lia.
  - apply Forall_app. split; [done|]. constructor; [|constructor].
    rewrite children_with_children by done.
    apply Forall_forall. intros k Hk.
    apply list_elem_of_lookup in Hk as [i Hi].
    destruct (Forall2_lookup_r _ _ _ _ _ Hkids Hi) as (x & Hx & [Hf _]).
    destruct x; simpl in Hf; try (by subst).
    destruct Hf as (a' & -> & Ha'). simpl. lia.
  - simpl. exists (length (h ++ ext)). split; [done|].
    rewrite (length_app (h ++ ext)), (length_app h). simpl. lia.
  - simpl. rewrite list_lookup_middle by done. rewrite Ho. simpl.
    rewrite children_with_children, label_with_children by done.
    rewrite (Forall2_mapM_ext (snapshot n ((h ++ ext) ++ [with_children o kids]))
               (snapshot n h) kids (children o)); [done|].
    apply Forall2_flip. eapply Forall2_impl; [exact Hkids|].
    intros x y [Hf Hs]. simpl. rewrite <-Hs.
    apply snapshot_app; [done|]. by eapply fresh_copy_points.
Qed.
End deepcopy.

(** ** Copies of instances *)

Section copy.
Import Model.
Local Open Scope nat_scope.
Implicit Types (h : heap) (v : val) (o : obj) (a : addr).
Implicit Types (f : string * val) (fields : list (string * val)).

Lemma field_readable_app n refs h ext f :
  wf h → field_readable n refs h f → field_readable n refs (h ++ ext) f.
Proof.
  intros Hwf [Hv Hs]. split.
  - eapply points_in_impl; [|exact Hv]. intros b. rewrite length_app. lia.
  - destruct Hs as [?|Hs]; [by left|right]. by rewrite snapshot_app.
Qed.

Lemma field_copied_end n refs h h1 ext f f' :
  wf h1 → field_copied n refs h h1 f f' →
  field_copied n refs h (h1 ++ ext) f f'.
Proof.
  intros Hwf [Hname Hval]. split; [done|].
  case_bool_decide; [done|]. by apply deep_copied_end.
Qed.

Lemma field_copied_start n refs h ext h2 f f' :
  wf h → field_readable n refs h f →
  field_copied n refs (h ++ ext) h2 f f' → field_copied n refs h h2 f f'.
Proof.
  intros Hwf [Hv Hs] [Hname Hval]. split; [done|].
  case_bool_decide; [done|]. destruct Hs as [?|Hs]; [done|].
  by eapply deep_copied_start.
Qed.

Lemma copy_field_spec n refs f h :
  wf h → field_readable n refs h f →
  ∃ ext f', copy_field n refs f h = (h ++ ext, Ok f') ∧ wf (h ++ ext)
          ∧ above (length h) ext ∧ field_copied n refs h (h ++ ext) f f'.
Proof.
  intros Hwf [Hv Hs]. unfold copy_field, field_copied.
  case_bool_decide as Hin.
  - exists [], f. rewrite app_nil_r. repeat split; try done. constructor.
  - destruct Hs as [?|Hs]; [done|].
    destruct (deepcopy_spec n f.2 h Hwf) as (ext & v' & Hdc & Hwf' & Hab & Hcp);
      [done|].
    exists ext, (f.1, v').
    split; [unfold mbind, mut_bind; by rewrite Hdc|]. done.
Qed.

Lemma copy_spec fuel h self cls fields :
  wf h → h !! self = Some (OInst cls fields) → copyable fuel h cls fields →
  ∃ ext fields',
    copy fuel self h
    = ((h ++ ext) ++ [OInst cls fields'], Ok (length (h ++ ext)))
    ∧ wf (h ++ ext) ∧ above (length h) ext
    ∧ Forall2 (field_copied fuel (copy_by_ref cls) h (h ++ ext)) fields fields'.
Proof.
  intros Hwf Hself Hcopyable.
  destruct (traverse_spec (copy_field fuel (copy_by_ref cls))
              (field_readable fuel (copy_by_ref cls))
              (field_copied fuel (copy_by_ref cls)))
    with (l := fields) (h := h)
    as (ext & fields' & Htr & Hwf' & Hab & Hfields); try done.
  { intros; by apply copy_field_spec. }
  { intros; by apply field_readable_app. }
  { intros; by apply field_copied_end. }
  { intros; by eapply field_copied_start. }
  { pose proof (wf_lookup _ _ _ Hwf Hself) as Hkids. simpl in Hkids.
    apply (proj1 (Forall_fmap _ _ _)) in Hkids.
    apply Forall_forall. intros f Hf. split.
    - exact (proj1 (Forall_forall _ _) Hkids f Hf).
    - exact (proj1 (Forall_forall _ _) Hcopyable f Hf). }
  exists ext, fields'. repeat split; try done.
  unfold copy, mbind, mut_bind, load, alloc. by rewrite Hself, Htr.
Qed.

Lemma snapshot_leaf d h v :
  (∀ a, v ≠ VRef a) → snapshot d h v = Some (Leaf v).
Proof. intros Hv. destruct v as [| | |a], d; try done; by destruct (Hv a). Qed.

Lemma new_closed h ext o :
  wf (h ++ ext) → above (length h) ext →
  ∀ a oa, length h ≤ a < length (h ++ ext) →
    ((h ++ ext) ++ [o]) !! a = Some oa →
    Forall (points_in (λ b, length h ≤ b < length (h ++ ext))) (children oa).
Proof.
  intros Hwf Hab a oa [Hlo Hhi] Ha.
  rewrite lookup_app_l in Ha by done.
  pose proof (wf_lookup _ _ _ Hwf Ha) as Hup.
  rewrite lookup_app_r in Ha by done.
  pose proof (Forall_lookup_1 _ _ _ _ Hab Ha) as Hdown. simpl in Hdown.
  apply Forall_forall. intros k Hk.
  eapply (proj1 (Forall_forall _ _)) in Hup; [|done].
  eapply (proj1 (Forall_forall _ _)) in Hdown; [|done].
  destruct k; simpl in *; try done; lia.
Qed.

Lemma deep_copied_duplicate fuel h ext o v v' :
  wf h → wf (h ++ ext) → above (length h) ext →
  readable fuel h v →
  deep_copied fuel h (h ++ ext) v v' →
  duplicate fuel ((h ++ ext) ++ [o]) v v'.
Proof.
  intros Hwf Hwf' Hab [Hv Hsome] [Hfresh Hsnap].
  assert (snapshot fuel ((h ++ ext) ++ [o]) v = snapshot fuel h v) as Hold.
  { rewrite <-app_assoc. by apply snapshot_app. }
  assert (snapshot fuel ((h ++ ext) ++ [o]) v' = snapshot fuel h v) as Hnew.
  { rewrite <-Hsnap. apply snapshot_app; [done|]. by eapply fresh_copy_points. }
  assert (∀ a oa, a < length h → ((h ++ ext) ++ [o]) !! a = Some oa →
            Forall (points_in (λ b, b < length h)) (children oa)) as Hclosed.
  { intros a oa Ha. rewrite <-app_assoc. by apply old_closed. }
  split; [by rewrite Hnew|]. split; [by rewrite Hnew, Hold|]. split.
  - intros a oa d Hr.
    assert (a < length h) as Ha.
    { by eapply (reaches_closed (λ b, b < length h)). }
    destruct v as [| | |av]; simpl in Hfresh;
      try (subst; by rewrite !snapshot_leaf).
    destruct Hfresh as (a' & -> & Ha'). symmetry.
    apply (snapshot_agree (λ b, length h ≤ b < length (h ++ ext))).
    + by apply new_closed.
    + intros b Hb. rewrite list_lookup_insert_ne; [done|lia].
    + done.
  - intros a oa d Hr.
    destruct v as [| | |av]; simpl in Hfresh;
      try (subst; by rewrite !snapshot_leaf).
    destruct Hfresh as (a' & -> & Ha').
    assert (length h ≤ a < length (h ++ ext)) as Ha.
    { eapply (reaches_closed (λ b, length h ≤ b < length (h ++ ext)));
        [by apply new_closed| |exact Hr]. done. }
    symmetry. apply (snapshot_agree (λ b, b < length h)).
    + done.
    + intros b Hb. rewrite list_lookup_insert_ne; [done|lia].
    + done.
Qed.

Lemma field_cons name k v fields :
  field name ((k, v) :: fields)
  = if decide (k = name) then Some v else field name fields.
Proof.
  unfold field. simpl. case_decide; [done|].
  by destruct (list_find _ fields) as [[i p]|].
Qed.

Lemma field_copied_identity n refs h h' fields fields' z :
  Forall2 (field_copied n refs h h') fields fields' →
  field "id" fields = Some (VInt z) → field "id" fields' = Some (VInt z).
Proof.
  induction 1 as [|[k v] [k' v'] l l' [Hname Hval] _ IH]; [done|].
  simpl in *. subst k'. rewrite !field_cons.
  destruct (decide (k = "id")) as [->|Hk]; [|exact IH]. intros [= ->].
  destruct (bool_decide _); [by subst|]. destruct Hval as [Hf _].
  simpl in Hf. by subst.
Qed.
End copy.

(** ** Properties of copies *)

Section copy_properties.
Import Model.
Local Open Scope nat_scope.
Implicit Types (h : heap) (fields : list (string * val)).

Lemma copy_by_ref_inherited base name slots refs x :
  x ∈ copy_by_ref (Sub base name slots refs)
  ↔ x ∈ copy_by_ref base ∨ x ∈ refs.
Proof. simpl. apply elem_of_app. Qed.

Lemma copy_result fuel h self cls fields :
  wf h → h !! self = Some (OInst cls fields) → copyable fuel h cls fields →
  ∃ ext fields',
    copy fuel self h
    = ((h ++ ext) ++ [OInst cls fields'], Ok (length (h ++ ext)))
    ∧ self < length h
    ∧ ((h ++ ext) ++ [OInst cls fields']) !! self = Some (OInst cls fields)
    ∧ ((h ++ ext) ++ [OInst cls fields']) !! length (h ++ ext)
      = Some (OInst cls fields')
    ∧ Forall2 (field_copied fuel (copy_by_ref cls) h (h ++ ext)) fields fields'
    ∧ Forall2 (copied_field fuel ((h ++ ext) ++ [OInst cls fields']) cls)
        fields fields'.
Proof.
  intros Hwf Hself Hcopyable.
  destruct (copy_spec fuel h self cls fields Hwf Hself Hcopyable)
    as (ext & fields' & Hcopy & Hwf' & Hab & Hfields).
  pose proof (lookup_lt_Some _ _ _ Hself) as Hlt.
  assert (∀ o, Forall2 (copied_field fuel ((h ++ ext) ++ [o]) cls)
                 fields fields') as Hall.
  { intros o.
    pose proof (wf_lookup _ _ _ Hwf Hself) as Hkids. simpl in Hkids.
    apply (proj1 (Forall_fmap _ _ _)) in Hkids.
    clear Hcopy Hself.
    induction Hfields as [|f f' l l' [Hname Hval] _ IH]; [constructor|].
    apply Forall_cons in Hcopyable as [Hf Hl].
    apply Forall_cons in Hkids as [Hk Hks].
    constructor; [|by apply IH].
    split; [done|]. destruct (bool_decide (f.1 ∈ copy_by_ref cls)) eqn:Hin.
    - split; [done|]. intros; by rewrite Hval.
    - apply bool_decide_eq_false in Hin. destruct Hf as [?|Hf]; [done|].
      by apply deep_copied_duplicate. }
  exists ext, fields'. split; [done|]. split; [done|]. split.
  { rewrite <-app_assoc. by rewrite lookup_app_l. }
  split; [by apply list_lookup_middle|]. done.
Qed.

(** C9: the reference-copy list of a type is that of its base together with
    the names the type adds.  [copy()] returns whenever the fields it has to
    duplicate can be read within the depth of recursion allowed, and the new
    instance has the fields of the original, of which every field named in
    the reference-copy list of the type holds the very value the original
    holds, so that what is seen through the one is what is seen through the
    other however that value is mutated, and every other field holds a
    duplicate: it shows the same as the original, and no mutation through
    the one changes what the other shows. *)
Theorem copy_shares_listed_fields_and_duplicates_others
    fuel h self cls fields :
  wf h → h !! self = Some (OInst cls fields) → copyable fuel h cls fields →
  (∀ base name slots refs x,
     x ∈ copy_by_ref (Sub base name slots refs)
     ↔ x ∈ copy_by_ref base ∨ x ∈ refs)
  ∧ ∃ h' c fields',
      copy fuel self h = (h', Ok c)
      ∧ h' !! self = Some (OInst cls fields)
      ∧ h' !! c = Some (OInst cls fields')
      ∧ Forall2 (copied_field fuel h' cls) fields fields'.
Proof.
  intros Hwf Hself Hcopyable. split; [apply copy_by_ref_inherited|].
  destruct (copy_result fuel h self cls fields Hwf Hself Hcopyable)
    as (ext & fields' & Hcopy & _ & Hold & Hnew & _ & Hfields).
  by eexists _, _, fields'.
Qed.

(** C8, as the model has it: [copy()] produces a new instance of the same
    concrete type, distinct from the original, which it leaves as it was.
    When the type carries an Identity, the copy compares equal to the
    original, since it carries the same Identity; when the type carries no
    Identity, equality is the identity of the instances and the copy does
    not compare equal to the original. *)
Theorem copy_is_new_instance_equal_by_identity fuel h self cls fields :
  wf h → h !! self = Some (OInst cls fields) → copyable fuel h cls fields →
  ∃ h' c fields',
    copy fuel self h = (h', Ok c)
    ∧ is_ c self = false
    ∧ h' !! self = Some (OInst cls fields)
    ∧ h' !! c = Some (OInst cls fields')
    ∧ (carries_identity cls = true → is_Some (identity fields) →
       equals h' c self = true)
    ∧ (carries_identity cls = false → equals h' c self = false).
Proof.
  intros Hwf Hself Hcopyable.
  destruct (copy_result fuel h self cls fields Hwf Hself Hcopyable)
    as (ext & fields' & Hcopy & Hlt & Hold & Hnew & Hcopied & _).
  assert (is_ (length (h ++ ext)) self = false) as Hne.
  { apply bool_decide_eq_false. rewrite length_app. lia. }
  eexists _, _, fields'. split; [done|]. split; [done|].
  split; [done|]. split; [done|]. unfold equals. rewrite Hnew, Hold. split.
  - intros -> [z Hz]. unfold identity in *.
    destruct (field "id" fields) as [[| z' | |]|] eqn:Hid; try done.
    rewrite (field_copied_identity _ _ _ _ _ _ _ Hcopied Hid).
    by rewrite !bool_decide_eq_true_2.
  - by intros ->.
Qed.
End copy_properties.

(** In [test_IModel_does_not_inject_dummy_init_if_not_interface] the class
    [Test] is concrete, has no fields and carries no Identity: the copy of an
    instance is another instance, and the two do not compare equal. *)
Lemma copy_of_plain_instance_is_not_equal :
  Model.copy 0 0%nat Model.plain_heap
  = ([Model.OInst Model.Plain []; Model.OInst Model.Plain []], Ok 1%nat)
  ∧ Model.is_ 1 0 = false
  ∧ Model.equals [Model.OInst Model.Plain []; Model.OInst Model.Plain []] 1 0
    = false.
Proof. by vm_compute. Qed.

(** As in [test_IModel_does_not_clone_fields_in___copy_by_ref___] and
    [test_IModel_copy]: the copy is another object, its [data], which is
    copied by reference, is the [data] of the original, and its [other], which
    is not, is another object than the [other] of the original. *)
Example copy_of_sharing_instance :
  (Model.copy 2 2%nat Model.sharing_heap).2 = Ok 5%nat
  ∧ Model.getattr (Model.copy 2 2%nat Model.sharing_heap).1 5 "data"
    = Some (Model.VRef 0)
  ∧ Model.getattr (Model.copy 2 2%nat Model.sharing_heap).1 2 "data"
    = Some (Model.VRef 0)
  ∧ Model.getattr (Model.copy 2 2%nat Model.sharing_heap).1 5 "other"
    = Some (Model.VRef 4)
  ∧ Model.getattr (Model.copy 2 2%nat Model.sharing_heap).1 2 "other"
    = Some (Model.VRef 1).
Proof. by vm_compute. Qed.

(** [test_IModel___copy_by_ref___is_inherited] *)
Example Base3_inherits_copy_by_ref :
  Forall (λ letter, letter ∈ Model.copy_by_ref Model.Base3)
    ["a"; "b"; "c"; "d"; "e"; "f"; "g"; "h"; "i"].
Proof. repeat constructor; set_solver. Qed.

(** ** The fabric *)

(** C6: a fabric holds an event handler, a state registry and a mapping from
    shard ids to gateways whose keys may be [None].  Constructed without
    arguments, its two components are [NotImplemented] and its mapping is the
    empty dictionary: it has no entry, under the [None] key or any other,
    whereas the comment on the field has it default to one shard under the
    [None] key. *)
Theorem default_fabric_has_no_gateway {IEventHandler IStateRegistry GatewayClientV7 : Type} :
  let fabric : Fabric.t IEventHandler IStateRegistry GatewayClientV7 :=
    Fabric.init None None None in
  Fabric.event_handler fabric = Fabric.NotImplemented
  ∧ Fabric.state_registry fabric = Fabric.NotImplemented
  ∧ Fabric.gateways fabric = ∅
  ∧ Fabric.gateways fabric !! None = None
  ∧ size (Fabric.gateways fabric) = 0%nat.
Proof. simpl. by rewrite lookup_empty, map_size_empty. Qed.

(** ** Snowflakes *)

Lemma init_Ok raw s : Snowflake.init raw = Ok s → Snowflake.id s = raw.
Proof. unfold Snowflake.init. case_bool_decide; by intros [= <-]. Qed.

(** C7: for Identities [a] and [b] constructed from raw values [ra < rb],
    [a < b] holds and [a] was not created after [b]; and an Identity created
    strictly before another has the smaller raw value: the order of the raw
    values and the order of the creation instants never disagree. *)
Theorem snowflake_order_is_chronological (ra rb : Z) (a b : Snowflake.t) :
  Snowflake.init ra = Ok a → Snowflake.init rb = Ok b →
  (ra < rb →
   Snowflake.lt a b = true
   ∧ Snowflake.created_at a ≤ Snowflake.created_at b)
  ∧ (Snowflake.created_at a < Snowflake.created_at b →
     ra < rb ∧ Snowflake.lt a b = true).
Proof.
  intros Ha Hb. apply init_Ok in Ha, Hb.
  unfold Snowflake.lt, Snowflake.created_at. rewrite Ha, Hb.
  rewrite !Z.shiftr_div_pow2 by lia. split.
  - intros Hlt. split; [by apply bool_decide_eq_true|].
    assert (ra / 2 ^ 22 ≤ rb / 2 ^ 22) by (apply Z.div_le_mono; lia). lia.
  - intros Hlt.
    assert (ra < rb) as Hraw.
    { destruct (decide (ra < rb)) as [|Hge]; [done|].
      assert (rb / 2 ^ 22 ≤ ra / 2 ^ 22) by (apply Z.div_le_mono; lia). lia. }
    split; [done|]. by apply bool_decide_eq_true.
Qed.

(** [test_Snowflake_comparison], [test_Snowflake_created_at] (2019-01-22
    18:41:15.283 UTC) and the tests of the three other parts. *)
Example Snowflake_tests :
  Snowflake.lt (Snowflake.mk 12345) (Snowflake.mk 12346) = true
  ∧ Snowflake.lt (Snowflake.mk 12345) (Snowflake.mk 12345) = false
  ∧ Snowflake.lt (Snowflake.mk 12345) (Snowflake.mk 12344) = false
  ∧ Snowflake.le (Snowflake.mk 12345) (Snowflake.mk 12345) = true
  ∧ Snowflake.gt (Snowflake.mk 12347) (Snowflake.mk 12346) = true
  ∧ Snowflake.ge (Snowflake.mk 12346) (Snowflake.mk 12347) = false
  ∧ Snowflake.created_at Snowflake.neko_snowflake = 1548182475283000
  ∧ Snowflake.increment Snowflake.neko_snowflake = 40
  ∧ Snowflake.internal_process_id Snowflake.neko_snowflake = 0
  ∧ Snowflake.internal_worker_id Snowflake.neko_snowflake = 2.
Proof. by vm_compute. Qed.

(** ** The properties on concrete inputs *)

Lemma update_state_sets_only_present_keys_witness :
  Presence.update_state (H:=integer_casts) Presence.idle_payload
    Presence.dnd_presence
  = (Presence.mk [] IDLE OFFLINE DND OFFLINE, Ok tt)
  ∧ Presence.activities
      (Presence.update_state (H:=integer_casts) Presence.idle_payload
         Presence.dnd_presence).1 = []
  ∧ Presence.desktop_status
      (Presence.update_state (H:=integer_casts) Presence.idle_payload
         Presence.dnd_presence).1 = DND
  ∧ Presence.status
      (Presence.update_state (H:=integer_casts) Presence.web_payload
         Presence.dnd_presence).1 = ONLINE
  ∧ Presence.update_state (H:=integer_casts) Presence.web_payload
      Presence.dnd_presence
    = (Presence.mk [] ONLINE OFFLINE DND OFFLINE, Ok tt).
Proof.
  destruct (update_state_sets_only_present_keys (H:=integer_casts)
              Presence.idle_payload Presence.dnd_presence)
    as (Ha & _ & _ & Hd & _ & _ & Hex).
  destruct (update_state_sets_only_present_keys (H:=integer_casts)
              Presence.web_payload Presence.dnd_presence)
    as (_ & Hs & _ & _ & _ & Hwf & _).
  split; [apply Hex; reflexivity|].
  split; [apply Ha; reflexivity|].
  split; [apply Hd; intros (m & Hm & _); vm_compute in Hm; discriminate|].
  split; [apply Hs; reflexivity|].
  destruct Hwf as (oacts & Hacts & Hm).
  - split; [exists None; reflexivity|].
    intros v Hv. vm_compute in Hv. injection Hv as <-. eexists; reflexivity.
  - vm_compute in Hacts. injection Hacts as <-. exact Hm.
Defined.

Lemma init_defaults_witness :
  Presence.init (H:=integer_casts) Presence.online_payload
  = Ok (Presence.mk [] ONLINE OFFLINE DND OFFLINE)
  ∧ returns (Presence.init (H:=integer_casts) Presence.web_payload)
  ∧ (∀ p, Presence.init (H:=integer_casts) Presence.online_payload = Ok p →
       Presence.activities p = [] ∧ Presence.web_status p = OFFLINE
       ∧ Presence.mobile_status p = OFFLINE)
  ∧ (∀ p, Presence.init (H:=integer_casts) Presence.web_payload = Ok p →
       Presence.status p = OFFLINE ∧ Presence.desktop_status p = OFFLINE).
Proof.
  destruct (init_defaults (H:=integer_casts) Presence.online_payload)
    as (Hex & _ & Honline).
  destruct (init_defaults (H:=integer_casts) Presence.web_payload)
    as (_ & Hwf & Hweb).
  split; [exact Hex|]. split.
  { apply Hwf. split; [exists None; reflexivity|].
    intros v Hv. vm_compute in Hv. injection Hv as <-. eexists; reflexivity. }
  split.
  - intros p Hp. destruct (Honline p Hp) as (Ha & _ & Hw & _ & Hm).
    split; [apply Ha; reflexivity|].
    split; [apply Hw|apply Hm]; intros (m & Hm' & Hk); vm_compute in Hm';
      injection Hm' as <-; destruct Hk as [x Hx]; vm_compute in Hx;
      discriminate.
  - intros p Hp. destruct (Hweb p Hp) as (_ & Hs & _ & Hd & _).
    split; [apply Hs; reflexivity|].
    apply Hd. intros (m & Hm' & Hk). vm_compute in Hm'.
    injection Hm' as <-. destruct Hk as [x Hx]. vm_compute in Hx. discriminate.
Defined.

Lemma update_state_replaces_activities_witness :
  Presence.listening_payload !! "activities"
  = Some (JList [JObj {[ "name" := JStr "x"; "type" := JNum 2 ]}])
  ∧ ∀ self,
      Presence.activities
        (Presence.update_state (H:=integer_casts) Presence.listening_payload
           self).1
      = [PresenceActivity.mk JNull (JStr "x") (Some LISTENING) JNull None None
           JNull JNull None None 0].
Proof.
  split; [reflexivity|]. intros self.
  pose proof (update_state_replaces_activities (H:=integer_casts)
                Presence.listening_payload self _ eq_refl) as Hw.
  set (r := py_iter _ ≫= _) in Hw. vm_compute in r. subst r.
  exact (proj1 Hw).
Defined.

Lemma unrecognized_status_is_offline_witness :
  Presence.update_state (H:=integer_casts) Presence.null_payload
    Presence.dnd_presence
  = (Presence.mk [] OFFLINE OFFLINE DND OFFLINE, Ok tt)
  ∧ returns (Presence.init (H:=integer_casts) Presence.null_payload)
  ∧ try_cast JNull from_discord_name OFFLINE = OFFLINE.
Proof.
  destruct (unrecognized_status_is_offline (H:=integer_casts)
              Presence.null_payload Presence.dnd_presence)
    as (Hnot & Hcast & Hwf & Hret & _).
  assert (Presence.well_formed (H:=integer_casts) Presence.null_payload) as Hp.
  { split; [exists None; reflexivity|].
    intros v Hv. vm_compute in Hv. injection Hv as <-. eexists; reflexivity. }
  destruct (Hwf Hp) as [Hout Hinit].
  destruct (Hret Hout) as (Hs & Hw & _).
  assert (Presence.unrecognized JNull) as Hnull by (apply Hnot; discriminate).
  assert (Presence.unrecognized (JNum 5)) as Hfive by (apply Hnot; discriminate).
  specialize (Hs JNull eq_refl Hnull). specialize (Hw (JNum 5) eq_refl Hfive).
  split; [|split; [exact Hinit|exact (Hcast _ Hnull)]].
  destruct (Presence.update_state Presence.null_payload Presence.dnd_presence)
    as [q out] eqn:Hq.
  simpl in *. subst out. f_equal.
  pose proof (f_equal fst Hq) as Hq1. simpl in Hq1.
  rewrite <-Hq1. reflexivity.
Defined.

Lemma snowflake_order_is_chronological_witness :
  Snowflake.init 12345 = Ok (Snowflake.mk 12345)
  ∧ Snowflake.init 4194304 = Ok (Snowflake.mk 4194304)
  ∧ Snowflake.lt (Snowflake.mk 12345) (Snowflake.mk 4194304) = true
  ∧ Snowflake.created_at (Snowflake.mk 12345)
    ≤ Snowflake.created_at (Snowflake.mk 4194304)
  ∧ Snowflake.created_at (Snowflake.mk 12345)
    < Snowflake.created_at (Snowflake.mk 4194304).
Proof.
  destruct (snowflake_order_is_chronological 12345 4194304
              (Snowflake.mk 12345) (Snowflake.mk 4194304) eq_refl eq_refl)
    as [Hraw Hchrono].
  destruct (Hraw ltac:(lia)) as [Hlt Hle].
  assert (Snowflake.created_at (Snowflake.mk 12345)
          < Snowflake.created_at (Snowflake.mk 4194304)) as Hbefore
    by (vm_compute; reflexivity).
  destruct (Hchrono Hbefore) as [_ Hlt'].
  repeat split; try reflexivity; assumption.
Defined.

Lemma sharing_heap_wf : Model.wf Model.sharing_heap.
Proof. repeat constructor. Qed.

Lemma copy_shares_listed_fields_and_duplicates_others_witness :
  Model.wf Model.sharing_heap
  ∧ Model.sharing_heap !! 2%nat
    = Some (Model.OInst Model.Sharing
              [("data", Model.VRef 0); ("other", Model.VRef 1)])
  ∧ Model.copyable 2 Model.sharing_heap Model.Sharing
      [("data", Model.VRef 0); ("other", Model.VRef 1)]
  ∧ ∃ h' c fields',
      Model.copy 2 2%nat Model.sharing_heap = (h', Ok c)
      ∧ h' !! c = Some (Model.OInst Model.Sharing fields')
      ∧ Forall2 (Model.copied_field 2 h' Model.Sharing)
          [("data", Model.VRef 0); ("other", Model.VRef 1)] fields'.
Proof.
  assert (Model.copyable 2 Model.sharing_heap Model.Sharing
            [("data", Model.VRef 0); ("other", Model.VRef 1)]) as Hcopyable.
  { constructor; [left; vm_compute; set_solver|].
    constructor; [right; eexists; reflexivity|constructor]. }
  split; [exact sharing_heap_wf|]. split; [reflexivity|].
  split; [exact Hcopyable|].
  destruct (copy_shares_listed_fields_and_duplicates_others 2
              Model.sharing_heap 2%nat Model.Sharing _ sharing_heap_wf eq_refl
              Hcopyable) as (_ & h' & c & fields' & Hcopy & _ & Hc & Hfields).
  by exists h', c, fields'.
Defined.

Lemma copy_is_new_instance_equal_by_identity_witness :
  Model.wf Model.snowflake_heap
  ∧ Model.carries_identity Model.DummySnowflake = true
  ∧ Model.carries_identity Model.Plain = false
  ∧ (∃ h' c, Model.copy 0 0%nat Model.snowflake_heap = (h', Ok c)
           ∧ Model.is_ c 0 = false ∧ Model.equals h' c 0 = true)
  ∧ (∃ h' c, Model.copy 0 0%nat Model.plain_heap = (h', Ok c)
           ∧ Model.is_ c 0 = false ∧ Model.equals h' c 0 = false).
Proof.
  assert (Model.wf Model.snowflake_heap) as Hwf1 by (repeat constructor).
  assert (Model.wf Model.plain_heap) as Hwf2 by (repeat constructor).
  split; [exact Hwf1|]. split; [reflexivity|]. split; [reflexivity|]. split.
  - destruct (copy_is_new_instance_equal_by_identity 0 Model.snowflake_heap
                0%nat Model.DummySnowflake _ Hwf1 eq_refl)
      as (h' & c & fields' & Hcopy & Hne & _ & _ & Heq & _).
    { constructor; [right; eexists; reflexivity|constructor]. }
    exists h', c. split; [exact Hcopy|]. split; [exact Hne|].
    apply Heq; [reflexivity|]. eexists; reflexivity.
  - destruct (copy_is_new_instance_equal_by_identity 0 Model.plain_heap
                0%nat Model.Plain _ Hwf2 eq_refl)
      as (h' & c & fields' & Hcopy & Hne & _ & _ & _ & Hneq).
    { constructor. }
    exists h', c. split; [exact Hcopy|]. split; [exact Hne|].
    apply Hneq. reflexivity.
Defined.

(** * More of [presences.py] *)

(** ** [Presence.update_state], exactly *)

Section presence_exact.
Context `{Casts}.
Implicit Types (payload : DiscordObjectT) (self : Presence.t).

Lemma client_outcome_dict m : client_outcome (JObj m) = Ok tt.
Proof.
  unfold client_outcome, client_check, mbind, result_bind. simpl.
  by repeat destruct (contains_key m _).
Qed.

(** The call leaves the object as the assignments of the payload make it, and
    ends as the three tests on ["client_status"] end; nothing is assigned
    when the activities cannot be built. *)
Lemma update_state_exact payload self :
  Presence.update_state payload self
  = match Presence.new_activities payload with
    | Ok oacts =>
        (Presence.merged payload oacts self,
         client_outcome (dict_get payload "client_status" EMPTY_DICT))
    | Raise e => (self, Raise e)
    end.
Proof.
  unfold Presence.update_state, Presence.new_activities, Presence.merged,
    Presence.client_dict, Presence.merge_status, client_outcome, client_check.
  unfold py_in, py_get, getitem, contains_key, dict_get, when, lift, assign,
    EMPTY_DICT.
  unfold mbind, mut_bind, result_bind, mret, mut_ret.
  destruct self as [a st w d mo]; simpl.
  destruct (payload !! "client_status") as [cs|] eqn:Hcs; simpl;
    [|rewrite !lookup_empty; simpl];
    (destruct (payload !! "activities") as [va|]; simpl;
     [destruct (py_iter va) as [items|]; simpl;
      [destruct (comprehension PresenceActivity.init items); simpl|]|]);
    try reflexivity;
    destruct (payload !! "status"); simpl; try reflexivity.
  all: destruct cs as [| b | z | s | l | m]; simpl; try reflexivity.
  all: try (destruct (m !! "web"); simpl; destruct (m !! "desktop"); simpl;
            destruct (m !! "mobile"); simpl; reflexivity).
  all: repeat match goal with
       | |- context [if ?b then _ else _] => destruct b; simpl
       end; reflexivity.
Qed.

Lemma merged_merged payload oacts self :
  Presence.merged payload oacts (Presence.merged payload oacts self)
  = Presence.merged payload oacts self.
Proof.
  unfold Presence.merged, Presence.merge_status. destruct self; simpl.
  by destruct oacts, (payload !! "status"),
    (Presence.client_dict payload !! "web"),
    (Presence.client_dict payload !! "desktop"),
    (Presence.client_dict payload !! "mobile").
Qed.
End presence_exact.

Section presence_more.
Context `{Casts}.
Implicit Types (payload : DiscordObjectT) (self : Presence.t).

Lemma well_formed_outcome payload :
  Presence.well_formed payload →
  client_outcome (dict_get payload "client_status" EMPTY_DICT) = Ok tt.
Proof.
  intros [_ Hcs]. unfold dict_get, EMPTY_DICT.
  destruct (payload !! "client_status") as [cs|]; simpl.
  - destruct (Hcs cs eq_refl) as [m ->]. apply client_outcome_dict.
  - apply client_outcome_dict.
Qed.

Lemma new_activities_absent payload oacts :
  payload !! "activities" = None →
  Presence.new_activities payload = Ok oacts → oacts = None.
Proof. unfold Presence.new_activities. intros ->. by intros [= <-]. Qed.

(** X1: merging the same payload twice in a row comes to merging it once:
    the object and the outcome are those of the single call, also when the
    call raises. *)
Theorem update_state_idempotent payload self :
  (Presence.update_state payload ;; Presence.update_state payload) self
  = Presence.update_state payload self.
Proof.
  unfold mbind, mut_bind. rewrite !update_state_exact.
  destruct (Presence.new_activities payload) as [oacts|e] eqn:Hacts; [|done].
  destruct (client_outcome _) as [[]|e] eqn:Hout; [|done].
  by rewrite update_state_exact, Hacts, merged_merged, Hout.
Qed.

(** X2: a payload without the keys ["activities"], ["status"] and
    ["client_status"] is merged without an error and without a change,
    whatever other keys it has. *)
Theorem update_state_ignores_other_keys payload self :
  payload !! "activities" = None → payload !! "status" = None →
  payload !! "client_status" = None →
  Presence.update_state payload self = (self, Ok tt).
Proof.
  intros Ha Hs Hc. rewrite update_state_exact.
  unfold Presence.new_activities, Presence.merged, Presence.client_dict,
    dict_get. rewrite Ha, Hs, Hc. simpl. rewrite !lookup_empty.
  by destruct self.
Qed.

(** X3: two payloads of the documented shape that assign to no common field
    can be merged in either order. *)
Theorem disjoint_updates_commute p1 p2 self :
  Presence.well_formed p1 → Presence.well_formed p2 →
  disjoint_updates p1 p2 →
  (Presence.update_state p1 ;; Presence.update_state p2) self
  = (Presence.update_state p2 ;; Presence.update_state p1) self.
Proof.
  intros Hwf1 Hwf2 (Hacts & Hstatus & Hclient).
  pose proof (well_formed_outcome p1 Hwf1) as Hout1.
  pose proof (well_formed_outcome p2 Hwf2) as Hout2.
  destruct Hwf1 as [[o1 Ho1] _], Hwf2 as [[o2 Ho2] _].
  unfold mbind, mut_bind.
  rewrite !update_state_exact, Ho1, Ho2, Hout1, Hout2.
  rewrite !update_state_exact, Ho1, Ho2, Hout1, Hout2.
  f_equal. unfold Presence.merged, Presence.merge_status.
  destruct self as [a st w d mo]; simpl. f_equal.
  - destruct Hacts as [Ha|Ha];
      [rewrite (new_activities_absent _ _ Ha Ho1)
      |rewrite (new_activities_absent _ _ Ha Ho2)]; by destruct o1, o2.
  - by destruct Hstatus as [-> | ->]; repeat case_match.
  - by destruct (Hclient "web") as [-> | ->]; repeat case_match.
  - by destruct (Hclient "desktop") as [-> | ->]; repeat case_match.
  - by destruct (Hclient "mobile") as [-> | ->]; repeat case_match.
Qed.

(** X4: when ["client_status"] is [None], a boolean or a number, the call
    raises [TypeError], after it has assigned the activities and the status
    that the payload carries; the web, desktop and mobile statuses are as
    they were. *)
Theorem scalar_client_status_raises_TypeError payload oacts cs self :
  payload !! "client_status" = Some cs →
  cs = JNull ∨ (∃ b, cs = JBool b) ∨ (∃ z, cs = JNum z) →
  Presence.new_activities payload = Ok oacts →
  Presence.update_state payload self
  = (merged_head payload oacts self, Raise TypeError).
Proof.
  intros Hcs Hscalar Hacts. rewrite update_state_exact, Hacts.
  unfold Presence.merged, merged_head, Presence.client_dict, dict_get.
  rewrite Hcs. simpl.
  destruct Hscalar as [->|[[b ->]|[z ->]]]; by rewrite !lookup_empty.
Qed.

(** X5: when ["client_status"] is a list or a string, the call raises
    [AttributeError] if one of ["web"], ["desktop"] and ["mobile"] is an
    element of the list, or a part of the string, and returns otherwise; in
    both cases the activities and the status that the payload carries are
    assigned and the web, desktop and mobile statuses are as they were. *)
Theorem sequence_client_status_raises_if_mentioned payload oacts cs self :
  payload !! "client_status" = Some cs →
  (∃ l, cs = JList l) ∨ (∃ s, cs = JStr s) →
  Presence.new_activities payload = Ok oacts →
  Presence.update_state payload self
  = (merged_head payload oacts self,
     if mentions_client cs then Raise AttributeError else Ok tt).
Proof.
  intros Hcs Hseq Hacts. rewrite update_state_exact, Hacts.
  unfold Presence.merged, merged_head, Presence.client_dict, dict_get.
  rewrite Hcs. simpl.
  unfold mentions_client, client_outcome, client_check, mbind, result_bind.
  destruct Hseq as [[l ->]|[s ->]]; simpl; rewrite !lookup_empty;
    repeat match goal with
    | |- context [if ?b then _ else _] => destruct b; simpl
    end; reflexivity.
Qed.

Lemma comprehension_raises {A} (f : json → result A) pre a post e :
  returns (comprehension f pre) → f a = Raise e →
  comprehension f (pre ++ a :: post) = Raise e.
Proof.
  intros [xs Hpre] Ha. revert xs Hpre.
  induction pre as [|b pre IH]; intros xs Hpre; simpl in *.
  - unfold mbind, result_bind. by rewrite Ha.
  - unfold mbind, result_bind in *. destruct (f b); [|done].
    destruct (comprehension f pre) as [ys|] eqn:Hys; [|done].
    by rewrite (IH ys).
Qed.

(** X6: when an entry of the ["activities"] list cannot be constructed, and
    the entries before it can, the call raises the exception of that entry
    and the presence is as it was, whatever else the payload carries. *)
Theorem failing_activity_aborts_update payload pre a post e self :
  payload !! "activities" = Some (JList (pre ++ a :: post)) →
  returns (comprehension PresenceActivity.init pre) →
  PresenceActivity.init a = Raise e →
  Presence.update_state payload self = (self, Raise e).
Proof.
  intros Hacts Hpre Ha. rewrite update_state_exact.
  unfold Presence.new_activities. rewrite Hacts. simpl.
  unfold mbind at 1, result_bind at 1.
  by rewrite (comprehension_raises _ _ _ _ _ Hpre Ha).
Qed.
End presence_more.

(** ** Two merges in a row *)

Section presence_overlay.
Context `{Casts}.
Implicit Types (p payload : DiscordObjectT) (self : Presence.t).

Lemma lookup_overlay p1 p2 (key : string) :
  (p2 ∪ p1) !! key = match p2 !! key with
                     | Some v => Some v
                     | None => p1 !! key
                     end.
Proof.
  destruct (p2 !! key) as [v|] eqn:Hv.
  - by apply lookup_union_Some_l.
  - by rewrite lookup_union_r.
Qed.

(** X7: merging one payload and then another, both of the documented shape
    and at most one of them with a ["client_status"], comes to merging the
    single payload that has the keys of both, with the values of the second
    where both have a key. *)
Theorem merges_compose_as_overlay p1 p2 self :
  Presence.well_formed p1 → Presence.well_formed p2 →
  p1 !! "client_status" = None ∨ p2 !! "client_status" = None →
  (Presence.update_state p1 ;; Presence.update_state p2) self
  = Presence.update_state (p2 ∪ p1) self.
Proof.
  intros Hwf1 Hwf2 Hclient.
  pose proof (well_formed_outcome p1 Hwf1) as Hout1.
  pose proof (well_formed_outcome p2 Hwf2) as Hout2.
  destruct Hwf1 as [[o1 Ho1] Hcs1], Hwf2 as [[o2 Ho2] Hcs2].
  unfold mbind, mut_bind.
  rewrite !update_state_exact, Ho1, Hout1.
  rewrite !update_state_exact, Ho2, Hout2.
  assert (Presence.new_activities (p2 ∪ p1)
          = Ok (match o2 with Some _ => o2 | None => o1 end)) as ->.
  { unfold Presence.new_activities in *. rewrite lookup_overlay.
    destruct (p2 !! "activities") as [v|].
    - rewrite Ho2. unfold mbind, result_bind in Ho2.
      destruct (py_iter v) as [items|]; [|done].
      destruct (comprehension PresenceActivity.init items); by simplify_eq.
    - by simplify_eq. }
  assert (dict_get (p2 ∪ p1) "client_status" EMPTY_DICT
          = match p2 !! "client_status" with
            | Some _ => dict_get p2 "client_status" EMPTY_DICT
            | None => dict_get p1 "client_status" EMPTY_DICT
            end) as ->.
  { unfold dict_get. rewrite lookup_overlay.
    by destruct (p2 !! "client_status"). }
  f_equal.
  - unfold Presence.merged, Presence.merge_status, Presence.client_dict.
    rewrite !lookup_overlay. destruct self as [a st w d mo]; simpl.
    destruct Hclient as [Hc|Hc]; rewrite Hc; simpl; rewrite ?lookup_empty.
    + destruct (p2 !! "client_status") as [[]|]; simpl; rewrite ?lookup_empty;
        f_equal; try (by destruct o1, o2); by repeat case_match.
    + destruct (p1 !! "client_status") as [[]|]; simpl; rewrite ?lookup_empty;
        f_equal; try (by destruct o1, o2); by repeat case_match.
  - by destruct (p2 !! "client_status").
Qed.
End presence_overlay.

(** ** The constructors of the activity kinds *)

Section activity_more.
Context `{Casts}.
Implicit Types (m : DiscordObjectT) (v : json).

Lemma nullable_cast_None {A} (cast : json → result A) v :
  nullable_cast v cast = Ok None ↔ v = JNull.
Proof.
  split; [|by intros ->].
  destruct v; simpl; try done; unfold fmap, result_fmap; by destruct (cast _).
Qed.

Lemma dict_get_null m key :
  dict_get m key JNull = JNull ↔ ¬ present m key.
Proof.
  unfold dict_get, present. destruct (m !! key) as [x|]; simpl.
  - split.
    + intros -> (y & [= <-] & Hy). done.
    + intros Hno. destruct x; try done; destruct Hno; by eexists.
  - split; [|done]. by intros _ (y & ? & _).
Qed.

(** Construction from a dictionary, spelled out: it succeeds when the five
    casts that can raise succeed, in the order of the assignments. *)
Lemma PresenceActivity_init_dict m act :
  PresenceActivity.init (JObj m) = Ok act
  ↔ ∃ timestamps application_id party assets flags,
      nullable_cast (dict_get m "timestamps" JNull) ActivityTimestamps.init
      = Ok timestamps
      ∧ nullable_cast (dict_get m "application_id" JNull) py_int
        = Ok application_id
      ∧ nullable_cast (dict_get m "party" JNull) ActivityParty.init = Ok party
      ∧ nullable_cast (dict_get m "assets" JNull) ActivityAssets.init
        = Ok assets
      ∧ nullable_cast (dict_get m "flags" JNull) ActivityFlag_call = Ok flags
      ∧ act = PresenceActivity.mk (dict_get m "id" JNull)
                (dict_get m "name" JNull)
                (try_cast (dict_get m "type" JNull)
                   (λ v, Some <$> ActivityType_call v) None)
                (dict_get m "url" JNull) timestamps application_id
                (dict_get m "details" JNull) (dict_get m "state" JNull)
                party assets (default 0 flags).
Proof.
  unfold PresenceActivity.init, py_get, mbind, result_bind.
  destruct (nullable_cast (dict_get m "timestamps" JNull) _) as [ts|e1].
  2: { split; [done|]. by intros (? & ? & ? & ? & ? & ? & _). }
  destruct (nullable_cast (dict_get m "application_id" JNull) _) as [app|e2].
  2: { split; [done|]. by intros (? & ? & ? & ? & ? & _ & ? & _). }
  destruct (nullable_cast (dict_get m "party" JNull) _) as [party|e3].
  2: { split; [done|]. by intros (? & ? & ? & ? & ? & _ & _ & ? & _). }
  destruct (nullable_cast (dict_get m "assets" JNull) _) as [assets|e4].
  2: { split; [done|]. by intros (? & ? & ? & ? & ? & _ & _ & _ & ? & _). }
  destruct (nullable_cast (dict_get m "flags" JNull) _) as [flags|e5].
  2: { split; [done|]. by intros (? & ? & ? & ? & ? & _ & _ & _ & _ & ? & _). }
  split.
  - intros [= <-]. by eexists _, _, _, _, _.
  - intros (? & ? & ? & ? & ? & [= <-] & [= <-] & [= <-] & [= <-] & [= <-] & ->).
    done.
Qed.

Lemma dict_get_insert_ne m key key' v d :
  key ≠ key' → dict_get (<[key:=v]> m) key' d = dict_get m key' d.
Proof. intros Hne. unfold dict_get. by rewrite lookup_insert_ne. Qed.

(** X8: the values under ["id"], ["name"], ["type"], ["url"], ["details"]
    and ["state"] never make the construction of an activity fail: replacing
    one of them by any value, a construction that succeeds still succeeds and
    one that fails still fails. *)
Theorem plain_keys_never_fail m key v :
  key ∈ plain_keys →
  returns (PresenceActivity.init (JObj (<[key:=v]> m)))
  ↔ returns (PresenceActivity.init (JObj m)).
Proof.
  intros Hkey.
  assert (key ≠ "timestamps" ∧ key ≠ "application_id" ∧ key ≠ "party"
          ∧ key ≠ "assets" ∧ key ≠ "flags") as (N1 & N2 & N3 & N4 & N5).
  { unfold plain_keys in Hkey. rewrite !elem_of_cons, elem_of_nil in Hkey.
    by destruct Hkey as [->|[->|[->|[->|[->|[->|[]]]]]]]. }
  split; intros [act Hact]; apply PresenceActivity_init_dict in Hact
      as (ts & app & party & assets & flags & H1 & H2 & H3 & H4 & H5 & _);
    eexists; apply PresenceActivity_init_dict; exists ts, app, party, assets, flags.
  - by rewrite !dict_get_insert_ne in H1, H2, H3, H4, H5 by done.
  - by rewrite !dict_get_insert_ne by done.
Qed.

Lemma nullable_cast_Ok {A} (cast : json → result A) v x :
  nullable_cast v cast = Ok x → (x = None ↔ v = JNull).
Proof.
  destruct v; simpl; unfold fmap, result_fmap;
    try (destruct (cast _); intros [= <-]; by split).
  by intros [= <-].
Qed.

Lemma present_dict_get m key :
  present m key ↔ dict_get m key JNull ≠ JNull.
Proof.
  unfold dict_get, present. destruct (m !! key) as [x|]; simpl.
  - split; [by intros (y & [= <-] & Hy)|]. intros Hx. by exists x.
  - split; [by intros (y & ? & _)|done].
Qed.

(** X9: each of the four optional parts of a constructed activity, the
    timestamps, the application id, the party and the assets, is [None]
    exactly when its key is missing from the payload or holds [None]. *)
Theorem optional_parts_None_iff_absent m act :
  PresenceActivity.init (JObj m) = Ok act →
  (PresenceActivity.timestamps act = None ↔ ¬ present m "timestamps")
  ∧ (PresenceActivity.application_id act = None
     ↔ ¬ present m "application_id")
  ∧ (PresenceActivity.party act = None ↔ ¬ present m "party")
  ∧ (PresenceActivity.assets act = None ↔ ¬ present m "assets").
Proof.
  intros Hact. apply PresenceActivity_init_dict in Hact
    as (ts & app & party & assets & flags & H1 & H2 & H3 & H4 & H5 & ->).
  simpl. rewrite <-!dict_get_null.
  repeat split; intros ?; by eapply nullable_cast_Ok.
Qed.

(** X10: a value under ["timestamps"], ["party"] or ["assets"] that is
    neither [None] nor a dictionary makes the construction of the activity
    fail. *)
Theorem nested_part_must_be_dict m key v :
  key ∈ nested_keys → m !! key = Some v → v ≠ JNull → (∀ d, v ≠ JObj d) →
  ¬ returns (PresenceActivity.init (JObj m)).
Proof.
  intros Hkey Hv Hnull Hdict [act Hact].
  apply PresenceActivity_init_dict in Hact
    as (ts & app & party & assets & flags & H1 & H2 & H3 & H4 & H5 & _).
  unfold nested_keys in Hkey. rewrite !elem_of_cons, elem_of_nil in Hkey.
  unfold dict_get in *.
  destruct Hkey as [->|[->|[->|[]]]]; rewrite Hv in *; simpl in *;
    destruct v; try done; by destruct (Hdict m0).
Qed.


(** X12: each of the four constructors raises [AttributeError] on a payload
    that is not a dictionary. *)
Theorem constructors_need_a_dict v :
  (∀ m, v ≠ JObj m) →
  PresenceActivity.init v = Raise AttributeError
  ∧ ActivityParty.init v = Raise AttributeError
  ∧ ActivityAssets.init v = Raise AttributeError
  ∧ ActivityTimestamps.init v = Raise AttributeError.
Proof. intros Hv. destruct v; try done. by destruct (Hv m). Qed.

(** X13: an [ActivityTimestamps] constructed from a dictionary has a start,
    and an end, exactly when the payload has a value other than [None] for
    it, and so a duration exactly when the payload has both. *)
Theorem timestamps_follow_payload m ts :
  ActivityTimestamps.init (JObj m) = Ok ts →
  (is_Some (ActivityTimestamps.start ts) ↔ present m "start")
  ∧ (is_Some (ActivityTimestamps.end_ ts) ↔ present m "end")
  ∧ (is_Some (ActivityTimestamps.duration ts)
     ↔ present m "start" ∧ present m "end").
Proof.
  unfold ActivityTimestamps.init, py_get, mbind, result_bind.
  destruct (nullable_cast (dict_get m "start" JNull) _) as [s|] eqn:Hs; [|done].
  destruct (nullable_cast (dict_get m "end" JNull) _) as [e|] eqn:He; [|done].
  intros [= <-]. unfold ActivityTimestamps.duration. simpl.
  rewrite !present_dict_get.
  apply nullable_cast_Ok in Hs, He.
  assert (is_Some s ↔ dict_get m "start" JNull ≠ JNull) as Hs'.
  { rewrite <-not_eq_None_Some. by rewrite Hs. }
  assert (is_Some e ↔ dict_get m "end" JNull ≠ JNull) as He'.
  { rewrite <-not_eq_None_Some. by rewrite He. }
  split; [done|]. split; [done|]. rewrite <-Hs', <-He'.
  destruct s, e; simpl; split; try (by intros [? ?]);
    by intros [[? ?] [? ?]].
Qed.

(** X14: a party size that the builtin [int] refuses makes the construction
    of the party raise what [int] raises, the current size being cast before
    the maximal size. *)
Theorem party_size_error_propagates m v e :
  m !! "current_size" = Some v → v ≠ JNull → py_int v = Raise e →
  ActivityParty.init (JObj m) = Raise e.
Proof.
  intros Hv Hnull Hint.
  unfold ActivityParty.init, py_get, mbind, result_bind, dict_get.
  rewrite Hv. simpl. destruct v; try done; simpl; by rewrite Hint.
Qed.
End activity_more.

(** ** The two enumerations of the activity kinds *)

Lemma ActivityType_call_Ok v a :
  ActivityType_call v = Ok a ↔ as_int v = Some (ActivityType_value a).
Proof.
  unfold ActivityType_call.
  destruct (as_int v) as [z|]; [|by destruct a].
  split.
  - repeat case_match; intros [= <-]; by subst.
  - intros [= ->]. by destruct a.
Qed.

Lemma ActivityType_value_inj a b :
  ActivityType_value a = ActivityType_value b → a = b.
Proof. by destruct a, b. Qed.

(** X15: [ActivityType(value)] is the member whose value is the integer
    given, a boolean counting as 0 or 1; it inverts the value of a member,
    no two members have the same value, and every other argument raises
    [ValueError]. *)
Theorem ActivityType_call_inverts_value :
  (∀ v a, ActivityType_call v = Ok a ↔ as_int v = Some (ActivityType_value a))
  ∧ (∀ a, ActivityType_call (JNum (ActivityType_value a)) = Ok a)
  ∧ (∀ a b, ActivityType_value a = ActivityType_value b → a = b)
  ∧ (∀ v e, ActivityType_call v = Raise e → e = ValueError).
Proof.
  split; [|split; [|split]].
  - apply ActivityType_call_Ok.
  - by intros [].
  - apply ActivityType_value_inj.
  - intros v e. unfold ActivityType_call. repeat case_match; by intros [= <-].
Qed.

Section activity_type.
Context `{Casts}.

(** X16: the type of a constructed activity is the member whose value is the
    integer under ["type"], and [None] when the payload has no type or one
    that is the value of no member. *)
Theorem activity_type_follows_payload (m : DiscordObjectT) act a :
  PresenceActivity.init (JObj m) = Ok act →
  PresenceActivity.type act = Some a
  ↔ ∃ v, m !! "type" = Some v ∧ as_int v = Some (ActivityType_value a).
Proof.
  intros Hact. apply PresenceActivity_init_dict in Hact
    as (ts & app & party & assets & flags & _ & _ & _ & _ & _ & ->).
  simpl. unfold try_cast, dict_get, fmap, result_fmap.
  pose proof ActivityType_call_Ok as Hcall.
  destruct (m !! "type") as [v|]; simpl.
  - destruct (ActivityType_call v) as [b|e] eqn:Hv.
    + apply Hcall in Hv. split.
      * intros [= <-]. by exists v.
      * intros (? & [= <-] & Ha). f_equal. rewrite Hv in Ha.
        apply ActivityType_value_inj. by injection Ha.
    + split; [done|]. intros (? & [= <-] & Ha). apply Hcall in Ha.
      by rewrite Hv in Ha.
  - split; [done|]. by intros (? & ? & _).
Qed.
End activity_type.

Lemma member_is_a_bit f :
  f ∈ ActivityFlag_members → ∃ i, 0 ≤ i ∧ f = 2 ^ i.
Proof.
  unfold ActivityFlag_members. rewrite !elem_of_cons, elem_of_nil.
  intros [->|[->|[->|[->|[->|[->|[]]]]]]];
    [exists 0|exists 1|exists 2|exists 3|exists 4|exists 5]; done.
Qed.

Lemma land_bit v i : 0 ≤ i → Z.land v (2 ^ i) = 2 ^ i ↔ Z.testbit v i = true.
Proof.
  intros Hi. split.
  - intros Hland. apply (f_equal (λ x, Z.testbit x i)) in Hland.
    rewrite Z.land_spec, Z.pow2_bits_true in Hland by done.
    by rewrite andb_true_r in Hland.
  - intros Hbit. apply Z.bits_inj'. intros n Hn.
    rewrite Z.land_spec, Z.pow2_bits_eqb by done.
    destruct (Z.eqb_spec i n) as [->|]; [by rewrite Hbit|by rewrite andb_false_r].
Qed.

Lemma flag_union_bit flags i :
  Z.testbit (flag_union flags) i = existsb (λ g, Z.testbit g i) flags.
Proof.
  induction flags as [|g flags IH]; simpl.
  - apply Z.testbit_0_l.
  - by rewrite Z.lor_spec, IH.
Qed.

(** X17: the members of [ActivityFlag] are distinct bits: a combination
    [a | b | ...] of members contains a member exactly when the member is
    one of those combined. *)
Theorem flag_union_contains_its_members flags f :
  Forall (λ g, g ∈ ActivityFlag_members) flags → f ∈ ActivityFlag_members →
  has_flag (flag_union flags) f = true ↔ f ∈ flags.
Proof.
  intros Hflags Hf. destruct (member_is_a_bit f Hf) as (i & Hi & ->).
  unfold has_flag. rewrite Z.eqb_eq, land_bit, flag_union_bit by done.
  rewrite existsb_exists. setoid_rewrite <-list_elem_of_In. split.
  - intros (g & Hg & Hbit).
    destruct (member_is_a_bit g) as (j & Hj & ->).
    { by eapply (proj1 (Forall_forall _ _)) in Hflags. }
    rewrite Z.pow2_bits_eqb in Hbit by done.
    apply Z.eqb_eq in Hbit. by subst.
  - intros Hin. exists (2 ^ i). split; [done|]. by apply Z.pow2_bits_true.
Qed.

(** ** The further properties on concrete inputs *)

Lemma update_state_ignores_other_keys_witness :
  Presence.update_state (H:=integer_casts) other_keys_payload
    Presence.dnd_presence
  = (Presence.dnd_presence, Ok tt).
Proof.
  apply (update_state_ignores_other_keys (H:=integer_casts)); reflexivity.
Defined.

Lemma well_formed_idle :
  Presence.well_formed (H:=integer_casts) Presence.idle_payload.
Proof.
  split; [exists None; reflexivity|]. intros v Hv. vm_compute in Hv. discriminate.
Qed.

Lemma well_formed_web :
  Presence.well_formed (H:=integer_casts) Presence.web_payload.
Proof.
  split; [exists None; reflexivity|].
  intros v Hv. vm_compute in Hv. injection Hv as <-. eexists; reflexivity.
Qed.

Lemma disjoint_updates_commute_witness :
  disjoint_updates Presence.idle_payload Presence.web_payload
  ∧ (Presence.update_state (H:=integer_casts) Presence.idle_payload ;;
     Presence.update_state (H:=integer_casts) Presence.web_payload)
      Presence.dnd_presence
    = (Presence.update_state (H:=integer_casts) Presence.web_payload ;;
       Presence.update_state (H:=integer_casts) Presence.idle_payload)
        Presence.dnd_presence.
Proof.
  assert (disjoint_updates Presence.idle_payload Presence.web_payload) as Hd.
  { split; [left; reflexivity|]. split; [right; reflexivity|].
    intros key. left. apply lookup_empty. }
  split; [exact Hd|].
  exact (disjoint_updates_commute (H:=integer_casts) _ _ _ well_formed_idle
           well_formed_web Hd).
Defined.

Lemma scalar_client_status_raises_TypeError_witness :
  Presence.update_state (H:=integer_casts) null_client_payload
    Presence.dnd_presence
  = (Presence.mk [] IDLE OFFLINE DND OFFLINE, Raise TypeError).
Proof.
  apply (scalar_client_status_raises_TypeError (H:=integer_casts)
           null_client_payload None JNull Presence.dnd_presence).
  - reflexivity.
  - left. reflexivity.
  - reflexivity.
Defined.

Lemma sequence_client_status_raises_if_mentioned_witness :
  mentions_client (JStr "webhook") = true
  ∧ Presence.update_state (H:=integer_casts) text_client_payload
      Presence.dnd_presence
    = (Presence.mk [] IDLE OFFLINE DND OFFLINE, Raise AttributeError).
Proof.
  split; [reflexivity|].
  apply (sequence_client_status_raises_if_mentioned (H:=integer_casts)
           text_client_payload None (JStr "webhook") Presence.dnd_presence).
  - reflexivity.
  - right. eexists. reflexivity.
  - reflexivity.
Defined.

Lemma failing_activity_aborts_update_witness :
  Presence.update_state (H:=integer_casts) bad_entry_payload
    Presence.dnd_presence
  = (Presence.dnd_presence, Raise AttributeError).
Proof.
  apply (failing_activity_aborts_update (H:=integer_casts) bad_entry_payload
           [JObj named_activity] (JStr "y") []).
  - reflexivity.
  - eexists. reflexivity.
  - reflexivity.
Defined.

Lemma plain_keys_never_fail_witness :
  "type" ∈ plain_keys
  ∧ returns (PresenceActivity.init (H:=integer_casts) (JObj named_activity))
  ∧ returns (PresenceActivity.init (H:=integer_casts)
               (JObj (<["type" := JStr "bogus"]> named_activity))).
Proof.
  assert ("type" ∈ plain_keys) as Hkey.
  { unfold plain_keys. rewrite !elem_of_cons. right. right. left. reflexivity. }
  assert (returns (PresenceActivity.init (H:=integer_casts)
                     (JObj named_activity))) as Hinit.
  { eexists. reflexivity. }
  split; [exact Hkey|]. split; [exact Hinit|].
  exact (proj2 (plain_keys_never_fail (H:=integer_casts) named_activity
                  "type" (JStr "bogus") Hkey) Hinit).
Defined.

Lemma activity_type_follows_payload_witness :
  ∃ act, PresenceActivity.init (H:=integer_casts) (JObj streaming_activity)
         = Ok act
       ∧ PresenceActivity.type act = Some STREAMING.
Proof.
  eexists. split; [reflexivity|].
  apply (activity_type_follows_payload (H:=integer_casts) streaming_activity
           _ STREAMING eq_refl).
  exists (JBool true). split; reflexivity.
Defined.

Lemma optional_parts_None_iff_absent_witness :
  ∃ act, PresenceActivity.init (H:=integer_casts) (JObj party_activity)
         = Ok act
       ∧ PresenceActivity.timestamps act = None
       ∧ PresenceActivity.party act ≠ None.
Proof.
  eexists. split; [reflexivity|].
  destruct (optional_parts_None_iff_absent (H:=integer_casts) party_activity
              _ eq_refl) as (Hts & _ & Hparty & _).
  split.
  - apply Hts. intros (v & Hv & _). vm_compute in Hv. discriminate.
  - intros Hnone. apply Hparty in Hnone. apply Hnone.
    eexists. split; [reflexivity|discriminate].
Defined.

Lemma nested_part_must_be_dict_witness :
  "party" ∈ nested_keys
  ∧ ¬ returns (PresenceActivity.init (H:=integer_casts)
                 (JObj text_party_activity)).
Proof.
  assert ("party" ∈ nested_keys) as Hkey.
  { unfold nested_keys. rewrite !elem_of_cons. right. left. reflexivity. }
  split; [exact Hkey|].
  apply (nested_part_must_be_dict (H:=integer_casts) text_party_activity
           "party" (JStr "p") Hkey); [reflexivity|discriminate|discriminate].
Defined.

Lemma constructors_need_a_dict_witness :
  PresenceActivity.init (H:=integer_casts) (JStr "y") = Raise AttributeError
  ∧ ActivityTimestamps.init (H:=integer_casts) (JNum 5) = Raise AttributeError.
Proof.
  split.
  - apply (constructors_need_a_dict (H:=integer_casts) (JStr "y")).
    discriminate.
  - apply (constructors_need_a_dict (H:=integer_casts) (JNum 5)).
    discriminate.
Defined.

Lemma timestamps_follow_payload_witness :
  ∃ ts, ActivityTimestamps.init (H:=integer_casts) (JObj started) = Ok ts
      ∧ is_Some (ActivityTimestamps.start ts)
      ∧ ¬ is_Some (ActivityTimestamps.duration ts).
Proof.
  eexists. split; [reflexivity|].
  destruct (timestamps_follow_payload (H:=integer_casts) started _ eq_refl)
    as (Hstart & _ & Hduration).
  split.
  - apply Hstart. eexists. split; [reflexivity|discriminate].
  - intros Hd. apply Hduration in Hd as [_ (v & Hv & _)].
    vm_compute in Hv. discriminate.
Defined.

Lemma party_size_error_propagates_witness :
  ActivityParty.init (H:=integer_casts) (JObj listed_size) = Raise TypeError.
Proof.
  apply (party_size_error_propagates (H:=integer_casts) listed_size (JList []));
    [reflexivity|discriminate|reflexivity].
Defined.

Lemma flag_union_contains_its_members_witness :
  has_flag (flag_union [JOIN; PLAY]) JOIN = true
  ∧ has_flag (flag_union [JOIN; PLAY]) SYNC ≠ true.
Proof.
  assert (Forall (λ g, g ∈ ActivityFlag_members) [JOIN; PLAY]) as Hflags.
  { unfold ActivityFlag_members.
    repeat constructor; rewrite !elem_of_cons; tauto. }
  assert (∀ f, f ∈ [JOIN; PLAY] ↔ f = JOIN ∨ f = PLAY) as Hin.
  { intros f. rewrite !elem_of_cons, elem_of_nil. tauto. }
  split.
  - apply (flag_union_contains_its_members [JOIN; PLAY] JOIN Hflags).
    + unfold ActivityFlag_members. rewrite !elem_of_cons. tauto.
    + apply Hin. left. reflexivity.
  - intros Hhas.
    apply (flag_union_contains_its_members [JOIN; PLAY] SYNC Hflags) in Hhas.
    + apply Hin in Hhas. destruct Hhas; discriminate.
    + unfold ActivityFlag_members. rewrite !elem_of_cons. tauto.
Defined.

Lemma merges_compose_as_overlay_witness :
  (Presence.update_state (H:=integer_casts) Presence.idle_payload ;;
   Presence.update_state (H:=integer_casts) Presence.web_payload)
    Presence.dnd_presence
  = Presence.update_state (H:=integer_casts)
      (Presence.web_payload ∪ Presence.idle_payload) Presence.dnd_presence.
Proof.
  apply (merges_compose_as_overlay (H:=integer_casts) _ _ _ well_formed_idle
           well_formed_web).
  left. reflexivity.
Defined.
